(** * The chat-completion client of bisheng_langchain (chat_models/qwen.py)

    A shallow embedding of the wire converter, the token accountant, the
    retry engine and the synchronous and streaming generation paths of
    [ChatQWen], with the properties its specification states about them.

    Python values that travel through the client are JSON shaped: they are
    embedded as the type [json], dictionaries as finite maps.  Exceptions are
    embedded as an explicit [result] type; a Python behaviour that the
    embedding does not represent is the separate outcome [Unmodelled], so that
    no definition ever claims a result the interpreter would not give. *)

From stdpp Require Import gmap strings list fin_maps.
From Stdlib Require Import ZArith Lia.

Set Warnings "-register-all,-clear-no-such-hyp".
Open Scope Z_scope.

(* ===================================================================== *)
(** * Python values *)
(* ===================================================================== *)

(** A float is kept as a decimal mantissa and exponent: the client only
    passes floats through and tests them for zero. *)
Inductive json :=
| JNull
| JBool (b : bool)
| JInt (n : Z)
| JFloat (m e : Z)
| JStr (s : string)
| JList (l : list json)
| JDict (d : gmap string json).

Inductive exn :=
| ValueError (msg : string)
| ValueErrorOf (prefix : string) (* ValueError(f'{prefix}{x}'): the print of [x] is not held *)
| NameError (name : string)
| KeyError (key : string)
| TypeError
| AttributeError
| IndexError
| NotImplementedError (model : string)
| Exception_ (arg : json)        (* raise Exception(x) *)
| RemoteError (detail : string)  (* an Exception raised by the HTTP client, the SDK or a library *)
| KeyboardInterrupt.             (* a BaseException that is not an Exception *)

Inductive result (A : Type) :=
| Ok (a : A)
| Raise (e : exn)
| Unmodelled.
Arguments Ok {A} a.
Arguments Raise {A} e.
Arguments Unmodelled {A}.

#[global] Instance result_ret : MRet result := fun A a => Ok a.
#[global] Instance result_bind : MBind result := fun A B f r =>
  match r with
  | Ok a => f a
  | Raise e => Raise e
  | Unmodelled => Unmodelled
  end.

Definition is_Ok {A} (r : result A) : bool :=
  match r with Ok _ => true | _ => false end.

(** [isinstance(e, Exception)] *)
Definition is_Exception (e : exn) : bool :=
  match e with KeyboardInterrupt => false | _ => true end.

Module Py.

(** [bool(v)] *)
Definition truthy (v : json) : bool :=
  match v with
  | JNull => false
  | JBool b => b
  | JInt n => negb (n =? 0)
  | JFloat m _ => negb (m =? 0)
  | JStr s => negb (String.eqb s "")
  | JList l => match l with [] => false | _ => true end
  | JDict d => negb (bool_decide (d = ∅))
  end.

(** [a or b] *)
Definition or (a b : json) : json := if truthy a then a else b.

(** [v == 'literal'] for a text literal *)
Definition eq_str (v : json) (s : string) : bool :=
  match v with JStr s' => String.eqb s' s | _ => false end.

(** [text.startswith(p)] *)
Definition startswith (text p : string) : bool := String.prefix p text.

Fixpoint is_substring (p s : string) : bool :=
  String.prefix p s
  || match s with
     | EmptyString => false
     | String _ s' => is_substring p s'
     end.

(** ['key' in v] *)
Definition contains (k : string) (v : json) : result bool :=
  match v with
  | JDict d => Ok (bool_decide (is_Some (d !! k)))
  | JList l => Ok (existsb (fun x => eq_str x k) l)
  | JStr s => Ok (is_substring k s)
  | _ => Raise TypeError
  end.

(** [d['key']] on a dict *)
Definition item (d : gmap string json) (k : string) : result json :=
  match d !! k with
  | Some v => Ok v
  | None => Raise (KeyError k)
  end.

(** [d.get('key', default)] on a dict *)
Definition get (d : gmap string json) (k : string) (default : json) : json :=
  match d !! k with
  | Some v => v
  | None => default
  end.

(** [v['key']]: only a dict can be subscripted by a text key. *)
Definition getitem (v : json) (k : string) : result json :=
  match v with
  | JDict d => item d k
  | _ => Raise TypeError
  end.

(** [v.get('key', default)]: only a dict has the method. *)
Definition get_method (v : json) (k : string) (default : json) : result json :=
  match v with
  | JDict d => Ok (get d k default)
  | _ => Raise AttributeError
  end.

(** [v.key] on an object of the SDK, which answers attribute access from
    its dict entries; what the SDK does for a missing entry is not
    represented. *)
Definition attr (v : json) (k : string) : result json :=
  match v with
  | JDict d => match d !! k with Some x => Ok x | None => Unmodelled end
  | _ => Raise AttributeError
  end.

(** [v[0]]; the first character of a text is not represented. *)
Definition first (v : json) : result json :=
  match v with
  | JList (x :: _) => Ok x
  | JList [] => Raise IndexError
  | JStr EmptyString => Raise IndexError
  | JStr _ => Unmodelled
  | JDict _ => Raise (KeyError "0")
  | _ => Raise TypeError
  end.

(** [a + b]; arithmetic on floats and booleans is not represented. *)
Definition add (a b : json) : result json :=
  match a, b with
  | JStr x, JStr y => Ok (JStr (x +:+ y))
  | JInt x, JInt y => Ok (JInt (x + y))
  | JList x, JList y => Ok (JList (x ++ y))
  | (JBool _ | JFloat _ _), (JBool _ | JInt _ | JFloat _ _)
  | JInt _, (JBool _ | JFloat _ _) => Unmodelled
  | _, _ => Raise TypeError
  end.

(** [a += b] as a value: a list is extended by any iterable. *)
Definition iadd (a b : json) : result json :=
  match a, b with
  | JList x, JList y => Ok (JList (x ++ y))
  | JList x, JStr EmptyString => Ok (JList x)
  | JList _, (JStr _ | JDict _) => Unmodelled
  | _, _ => add a b
  end.

(** One item of the sequence given to [dict(...)]: a two-item list with a
    text key.  Other two-item iterables give keys or an order that a
    [gmap string json] cannot hold. *)
Definition pair_of (x : json) : result (string * json) :=
  match x with
  | JList [JStr k; v] => Ok (k, v)
  | JList [JList _; _] | JList [JDict _; _] => Raise TypeError
  | JList [_; _] => Unmodelled
  | JList _ => Raise (ValueError "dictionary update sequence element has the wrong length")
  | JStr _ | JDict _ => Unmodelled
  | _ => Raise TypeError
  end.

Fixpoint dict_of_pairs (l : list json) (acc : gmap string json)
  : result (gmap string json) :=
  match l with
  | [] => Ok acc
  | x :: l' => p ← pair_of x; dict_of_pairs l' (<[p.1 := p.2]> acc)
  end.

(** [dict(v)]: a copy of a dict; a dict built from a sequence of pairs. *)
Definition dict (v : json) : result (gmap string json) :=
  match v with
  | JDict d => Ok d
  | JList l => dict_of_pairs l ∅
  | JStr EmptyString => Ok ∅
  | JStr _ => Raise (ValueError "dictionary update sequence element has the wrong length")
  | _ => Raise TypeError
  end.

(** The items a [for] loop visits.  The characters of a text and the keys
    of a dict in insertion order are not represented. *)
Definition iter (v : json) : result (list json) :=
  match v with
  | JList l => Ok l
  | JStr EmptyString => Ok []
  | JStr _ => Unmodelled
  | JDict d => if bool_decide (d = ∅) then Ok [] else Unmodelled
  | _ => Raise TypeError
  end.

(** [{**a, **b}]: the keys of [b] win. *)
Definition merge (a b : gmap string json) : gmap string json := b ∪ a.

Definition opt (o : option json) : json :=
  match o with Some v => v | None => JNull end.

End Py.

(* ===================================================================== *)
(** * Messages and the wire converter *)
(* ===================================================================== *)

(** The message classes of langchain_core that the converter tells apart.
    Fields hold the values the constructors are given; the validation and
    the coercions of the classes' own validators are not represented.  [AIMessage] has the extra
    attribute [role] that the SDK streaming path sets. [OtherMessage] stands
    for any further subclass of [BaseMessage]. *)
Inductive BaseMessage :=
| ChatMessage (content role : json) (additional_kwargs : gmap string json)
| HumanMessage (content : json) (additional_kwargs : gmap string json)
| AIMessage (content : json) (additional_kwargs : gmap string json) (role : option json)
| SystemMessage (content : json) (additional_kwargs : gmap string json)
| FunctionMessage (content name : json) (additional_kwargs : gmap string json)
| ToolMessage (content tool_call_id : json) (additional_kwargs : gmap string json)
| OtherMessage (content : json) (additional_kwargs : gmap string json).

Definition content (m : BaseMessage) : json :=
  match m with
  | ChatMessage c _ _ | HumanMessage c _ | AIMessage c _ _ | SystemMessage c _
  | FunctionMessage c _ _ | ToolMessage c _ _ | OtherMessage c _ => c
  end.

Definition additional_kwargs (m : BaseMessage) : gmap string json :=
  match m with
  | ChatMessage _ _ k | HumanMessage _ k | AIMessage _ k _ | SystemMessage _ k
  | FunctionMessage _ _ k | ToolMessage _ _ k | OtherMessage _ k => k
  end.

(** [if key in src: dst[key] = src[key]] *)
Definition copy_key (key : string) (src dst : gmap string json) : gmap string json :=
  match src !! key with
  | Some v => <[key := v]> dst
  | None => dst
  end.

Definition role_content (role c : json) : gmap string json :=
  <["content" := c]> {["role" := role]}.

Definition _convert_message_to_dict (message : BaseMessage) : result (gmap string json) :=
  message_dict ←
    match message with
    | ChatMessage c r _ => Ok (role_content r c)
    | HumanMessage c _ => Ok (role_content (JStr "user") c)
    | AIMessage c ak _ =>
        Ok (copy_key "tool_calls" ak
              (copy_key "function_call" ak (role_content (JStr "assistant") c)))
    | SystemMessage c _ => Ok (role_content (JStr "system") c)
    | FunctionMessage c n _ => Ok (<["name" := n]> (role_content (JStr "function") c))
    | ToolMessage c i _ => Ok (<["tool_call_id" := i]> (role_content (JStr "tool") c))
    | OtherMessage _ _ => Raise (ValueErrorOf "Got unknown type ")
    end;
  Ok (copy_key "name" (additional_kwargs message) message_dict).

Definition _convert_dict_to_message (_dict : gmap string json) : result BaseMessage :=
  role ← Py.item _dict "role";
  if Py.eq_str role "user" then
    c ← Py.item _dict "content"; Ok (HumanMessage c ∅)
  else if Py.eq_str role "assistant" then
    c ← Py.item _dict "content";
    let content := Py.or c (JStr "") in
    ak ← match _dict !! "function_call" with
         | Some fc => d ← Py.dict fc; Ok ({["function_call" := JDict d]} : gmap string json)
         | None => Ok ∅
         end;
    Ok (AIMessage content (copy_key "tool_calls" _dict ak) None)
  else if Py.eq_str role "system" then
    c ← Py.item _dict "content"; Ok (SystemMessage c ∅)
  else if Py.eq_str role "function" then
    c ← Py.item _dict "content"; n ← Py.item _dict "name"; Ok (FunctionMessage c n ∅)
  else if Py.eq_str role "tool" then
    c ← Py.item _dict "content"; i ← Py.item _dict "tool_call_id"; Ok (ToolMessage c i ∅)
  else
    c ← Py.item _dict "content"; Ok (ChatMessage c role ∅).

(** The converter applied to a value that is subscripted like a mapping. *)
Definition convert_value_to_message (v : json) : result BaseMessage :=
  match v with
  | JDict d => _convert_dict_to_message d
  | _ => Raise TypeError
  end.

(* ===================================================================== *)
(** * The retry engine *)
(* ===================================================================== *)

(** What one request of the raw-HTTP transport carries. *)
Record Request := {
  req_headers : gmap string string;
  req_url : string;
  req_json : json;
}.

(** What a retried call leaves behind: how often the wrapped function ran,
    the requests it posted, and the delays slept between attempts, each also
    reported by the [before_sleep] warning. *)
Record RetryLog := {
  attempts : nat;
  posted : list Request;
  sleeps : list Z;
}.

Definition empty_log : RetryLog := {| attempts := 0; posted := []; sleeps := [] |}.

Definition log_attempt (reqs : list Request) (log : RetryLog) : RetryLog :=
  {| attempts := S (attempts log); posted := posted log ++ reqs; sleeps := sleeps log |}.

Definition log_sleep (delay : Z) (log : RetryLog) : RetryLog :=
  {| attempts := attempts log; posted := posted log; sleeps := sleeps log ++ [delay] |}.

Definition min_seconds : Z := 1.
Definition max_seconds : Z := 20.

(** tenacity's [wait_exponential(multiplier, min, max)] with its default
    [exp_base] 2, asked after attempt [attempt_number]. *)
Definition wait_exponential (multiplier min max : Z) (attempt_number : nat) : Z :=
  let exp := 2 ^ (Z.of_nat attempt_number - 1) in
  let result := multiplier * exp in
  Z.max (Z.max 0 min) (Z.min result max).

(** tenacity's [stop_after_attempt(n)]; the comparison with [None] is a
    [TypeError]. *)
Definition stop_after_attempt (max_attempt_number : option Z) (attempt_number : nat)
  : result bool :=
  match max_attempt_number with
  | Some k => Ok (k <=? Z.of_nat attempt_number)
  | None => Raise TypeError
  end.

Section Retrying.
Context {A : Type}.
(** [llm.max_retries] *)
Variable max_retries : option Z.
(** The wrapped function: the outcome of its [i]-th invocation, counted from
    1, with the requests it posted. *)
Variable fn : nat -> result A * list Request.

(** The loop of tenacity's [Retrying], configured as
    [_create_retry_decorator] does: [reraise=True],
    [stop=stop_after_attempt(llm.max_retries)],
    [wait=wait_exponential(multiplier=1, min=min_seconds, max=max_seconds)],
    [retry=retry_if_exception_type(Exception)].  One unit of fuel is one
    attempt; [None] is the loop cut short. *)
Fixpoint retrying (fuel : nat) (attempt_number : nat) (log : RetryLog)
  : option (result A * RetryLog) :=
  match fuel with
  | O => None
  | S fuel' =>
      let '(outcome, reqs) := fn attempt_number in
      let log := log_attempt reqs log in
      match outcome with
      | Ok a => Some (Ok a, log)
      | Unmodelled => Some (Unmodelled, log)
      | Raise e =>
          if negb (is_Exception e) then Some (Raise e, log)
          else
            match stop_after_attempt max_retries attempt_number with
            | Ok true => Some (Raise e, log)
            | Ok false =>
                let delay := wait_exponential 1 min_seconds max_seconds attempt_number in
                retrying fuel' (S attempt_number) (log_sleep delay log)
            | Raise e' => Some (Raise e', log)
            | Unmodelled => Some (Unmodelled, log)
            end
      end
  end.

Definition retry_call (fuel : nat) : option (result A * RetryLog) :=
  retrying fuel 1%nat empty_log.

End Retrying.

(* ===================================================================== *)
(** * The client *)
(* ===================================================================== *)

(** The [Requests] wrapper held in [ChatQWen.client]: its shared headers. *)
Record Client := { headers : gmap string string }.

Record ChatQWen := {
  client : option Client;
  model_name : string;
  temperature : json;
  top_p : json;
  repetition_penalty : json;
  top_k : json;
  seed : json;
  model_kwargs : gmap string json;
  dashscope_api_key : option string;
  max_retries : option Z;
  streaming : bool;
  max_tokens : json;
  result_format : json;
  tiktoken_model_name : option string;
  use_dashscope_sdk : bool;
}.

Definition set_client (c : option Client) (self : ChatQWen) : ChatQWen :=
  {| client := c; model_name := model_name self; temperature := temperature self;
     top_p := top_p self; repetition_penalty := repetition_penalty self;
     top_k := top_k self; seed := seed self; model_kwargs := model_kwargs self;
     dashscope_api_key := dashscope_api_key self; max_retries := max_retries self;
     streaming := streaming self; max_tokens := max_tokens self;
     result_format := result_format self;
     tiktoken_model_name := tiktoken_model_name self;
     use_dashscope_sdk := use_dashscope_sdk self |}.

Definition url : string :=
  "https://dashscope.aliyuncs.com/api/v1/services/aigc/text-generation/generation".

(** The field defaults of the class. *)
Definition default_fields : ChatQWen :=
  {| client := None; model_name := "qwen-turbo"; temperature := JFloat 95 (-2);
     top_p := JFloat 8 (-1); repetition_penalty := JFloat 11 (-1);
     top_k := JNull; seed := JInt 1234; model_kwargs := ∅;
     dashscope_api_key := None; max_retries := Some 3; streaming := false;
     max_tokens := JInt 1024; result_format := JStr "message";
     tiktoken_model_name := None; use_dashscope_sdk := true |}.

(** [__init__], after the fields are populated: the key comes from the
    keyword arguments or else from the environment, an empty text counting
    as missing; in raw-HTTP mode the
    client is built with its two headers.  In SDK mode the key is stored in
    the SDK's module and [client] keeps its value. *)
Definition get_from_dict_or_env (key_kwarg key_env : option string) : result string :=
  let found (o : option string) :=
    match o with
    | Some EmptyString | None => None
    | Some k => Some k
    end in
  match found key_kwarg, found key_env with
  | Some k, _ => Ok k
  | None, Some k => Ok k
  | None, None => Raise (ValueError "Did not find dashscope_api_key")
  end.

Definition init (fields : ChatQWen) (key_kwarg key_env : option string) : result ChatQWen :=
  match get_from_dict_or_env key_kwarg key_env with
  | Raise e => Raise e
  | Unmodelled => Unmodelled
  | Ok key =>
      let self :=
        {| client := client fields; model_name := model_name fields;
           temperature := temperature fields; top_p := top_p fields;
           repetition_penalty := repetition_penalty fields; top_k := top_k fields;
           seed := seed fields; model_kwargs := model_kwargs fields;
           dashscope_api_key := Some key; max_retries := max_retries fields;
           streaming := streaming fields; max_tokens := max_tokens fields;
           result_format := result_format fields;
           tiktoken_model_name := tiktoken_model_name fields;
           use_dashscope_sdk := use_dashscope_sdk fields |} in
      if use_dashscope_sdk fields then Ok self
      else
        let header : gmap string string :=
          <["Content-Type" := "application/json"]>
            {["Authorization" := "Bearer " +:+ key]} in
        Ok (set_client (Some {| headers := header |}) self)
  end.

Definition _default_params (self : ChatQWen) : gmap string json :=
  Py.merge
    (<["repetition_penalty" := repetition_penalty self]>
       (<["result_format" := result_format self]>
          (<["seed" := seed self]>
             (<["max_tokens" := max_tokens self]>
                (<["top_k" := top_k self]>
                   (<["top_p" := top_p self]>
                      {["temperature" := temperature self]}))))))
    (model_kwargs self).

Definition _client_params (self : ChatQWen) : gmap string json :=
  _default_params self.

(** [kwargs.pop(key, default)]: the value and the remaining keywords. *)
Definition pop (key : string) (default : json) (kwargs : gmap string json)
  : json * gmap string json :=
  (Py.get kwargs key default, delete key kwargs).

Definition _build_input_parameters (model : string) (messages : json)
    (kwargs : gmap string json) : result (gmap string json * gmap string json) :=
  let input : gmap string json :=
    match messages with
    | JNull => ∅
    | _ => {["messages" := messages]}
    end in
  '(input, parameters, kwargs) ←
    (if Py.startswith model "qwen" then
       let '(enable_search, kwargs) := pop "enable_search" (JBool false) kwargs in
       if Py.truthy enable_search
       then Ok (input, ({["enable_search" := enable_search]} : gmap string json), kwargs)
       else Ok (input, (∅ : gmap string json), kwargs)
     else if Py.startswith model "bailian" then
       let '(customized_model_id, kwargs) := pop "customized_model_id" JNull kwargs in
       match customized_model_id with
       | JNull => Raise (ValueError ("customized_model_id is required for " +:+ model))
       | _ => Ok (<["customized_model_id" := customized_model_id]> input, ∅, kwargs)
       end
     else Ok (input, ∅, kwargs));
  let parameters :=
    if negb (bool_decide (is_Some (kwargs !! "incremental_output")))
       && Py.truthy (Py.get kwargs "stream" JNull)
    then <["incremental_output" := JBool true]> parameters
    else parameters in
  Ok (input, Py.merge parameters kwargs).

(* ===================================================================== *)
(** * Results and the synchronous raw-HTTP path *)
(* ===================================================================== *)

Record ChatGeneration := {
  message : BaseMessage;
  generation_info : option (gmap string json);
}.

Record ChatResult := {
  generations : list ChatGeneration;
  llm_output : option (gmap string json);
}.

(** [ChatGeneration(message=message)] *)
Definition generation_of (m : BaseMessage) : ChatGeneration :=
  {| message := m; generation_info := None |}.

Fixpoint convert_choices (choices : list json) : result (list ChatGeneration) :=
  match choices with
  | [] => Ok []
  | res :: rest =>
      m ← Py.getitem res "message";
      message ← convert_value_to_message m;
      gens ← convert_choices rest;
      Ok (generation_of message :: gens)
  end.

Definition _create_chat_result (self : ChatQWen) (response usage : json) : result ChatResult :=
  choices ← Py.getitem response "choices";
  choices ← Py.iter choices;
  generations ← convert_choices choices;
  let llm_output : gmap string json :=
    <["model_name" := JStr (model_name self)]> {["token_usage" := usage]} in
  Ok {| generations := generations; llm_output := Some llm_output |}.

(** The output and the usage that stand in for a response rejected by
    content inspection. *)
Definition output_res (rejection_message : json) : json :=
  JDict {["choices" :=
    JList [JDict (<["message" :=
                      JDict (<["content" := rejection_message]>
                               {["role" := JStr "assistant"]})]>
                    {["finish_reason" := JStr "stop"]})]]}.

Definition usage_res : json :=
  JDict (<["input_tokens" := JInt 1]>
           (<["output_tokens" := JInt 1]> {["total_tokens" := JInt 2]})).

(** ['code' in rsp_dict and rsp_dict['code'] == 'DataInspectionFailed'] *)
Definition rejected (rsp_dict : json) : result bool :=
  has_code ← Py.contains "code" rsp_dict;
  if has_code : bool
  then code ← Py.getitem rsp_dict "code"; Ok (Py.eq_str code "DataInspectionFailed")
  else Ok false.

(** The classification of the response once the retried call has returned. *)
Definition classify_response (rsp_dict : json) : result (json * json) :=
  rejected ← rejected rsp_dict;
  if rejected : bool then
    m ← Py.getitem rsp_dict "message";
    Ok (output_res m, usage_res)
  else
    has_output ← Py.contains "output" rsp_dict;
    if negb has_output : bool then
      message ← Py.getitem rsp_dict "message";
      Raise (Exception_ message)
    else
      output ← Py.getitem rsp_dict "output";
      usage ← Py.get_method rsp_dict "usage" (JStr "");
      Ok (output, usage).

(** The global names that the functions below read and the module never
    binds.  Line 60 reads [retry_if_exception_type]; line 24 imports
    [before_sleep_log], [retry], [stop_after_attempt] and [wait_exponential]
    from tenacity and nothing else in the module binds the name.  A namespace
    says whether the name is bound when a function runs, which it can only be
    from outside the module, to tenacity's function of that name. *)
Record Namespace := { retry_if_exception_type : bool }.

(** The namespace of the module as it is written. *)
Definition as_written : Namespace := {| retry_if_exception_type := false |}.

(** A namespace in which the name has been bound from outside. *)
Definition patched : Namespace := {| retry_if_exception_type := true |}.

(** tenacity's [retry(...)] as line 56-62 configure it: [reraise=True], the
    wait [wait_exponential(multiplier=1, min=min_seconds, max=max_seconds)],
    the retry condition [retry_if_exception_type(Exception)], and the stop
    condition [stop_after_attempt(llm.max_retries)], which is all that
    differs from one decorator to the next. *)
Record RetryDecorator := { stop_after : option Z }.

Section RawHttp.
Variable globals : Namespace.
(** The remote service seen through [self.client.post(...).json()]: the
    parsed body returned to the [i]-th request of a call, or the exception
    raised. *)
Variable transport : nat -> Request -> result json.

(** The request that the wrapped function builds from its keywords. *)
Definition request_of (self : ChatQWen) (c : Client) (kwargs : gmap string json)
  : result Request :=
  let '(messages, kwargs) := pop "messages" (JStr "") kwargs in
  if bool_decide (is_Some (kwargs !! "model")) || bool_decide (is_Some (kwargs !! "cls"))
  then Raise TypeError
  else
    '(input, params) ← _build_input_parameters (model_name self) messages kwargs;
    let inp : gmap string json :=
      <["model" := JStr (model_name self)]>
        (<["parameters" := JDict params]> {["input" := JDict input]}) in
    Ok {| req_headers := headers c; req_url := url; req_json := JDict inp |}.

(** The function wrapped by the retry decorator, at its [i]-th invocation. *)
Definition _completion_with_retry (self : ChatQWen) (c : Client)
    (kwargs : gmap string json) (i : nat) : result json * list Request :=
  match request_of self c kwargs with
  | Ok req => (transport i req, [req])
  | Raise e => (Raise e, [])
  | Unmodelled => (Unmodelled, [])
  end.

(** [self.client.headers.pop('Accept', '')] *)
Definition pop_accept (c : Client) : Client :=
  {| headers := delete "Accept" (headers c) |}.

(** [_create_retry_decorator]: the stop condition and the wait are built
    from the names that line 24 imports; then [retry_if_exception_type] is
    read, which the module never binds. *)
Definition _create_retry_decorator (llm : ChatQWen) : result RetryDecorator :=
  let stop := max_retries llm in
  if retry_if_exception_type globals
  then Ok {| stop_after := stop |}
  else Raise (NameError "retry_if_exception_type").

(** The retried call inside [completion_with_retry], on the client [c],
    once there is a decorator. *)
Definition retried_response (retry_decorator : RetryDecorator) (self : ChatQWen)
    (c : Client) (kwargs : gmap string json) (fuel : nat)
  : option (result json * RetryLog) :=
  retry_call (stop_after retry_decorator)
    (_completion_with_retry self (pop_accept c) kwargs) fuel.

(** [completion_with_retry]: the result, the client object afterwards and
    the log of the retried call.  The decorator is created first (line 226),
    the header is removed next (line 227). *)
Definition completion_with_retry (self : ChatQWen) (kwargs : gmap string json)
    (fuel : nat) : option (result (json * json) * ChatQWen * RetryLog) :=
  match _create_retry_decorator self with
  | Raise e => Some (Raise e, self, empty_log)
  | Unmodelled => Some (Unmodelled, self, empty_log)
  | Ok retry_decorator =>
      match client self with
      | None => Some (Raise AttributeError, self, empty_log)
      | Some c =>
          match retried_response retry_decorator self c kwargs fuel with
          | None => None
          | Some (r, log) =>
              Some (rsp_dict ← r; classify_response rsp_dict,
                    set_client (Some (pop_accept c)) self, log)
          end
      end
  end.

End RawHttp.

(* ===================================================================== *)
(** * Streaming state and the SDK path *)
(* ===================================================================== *)

(** What a streaming call accumulates: the content buffer, the current role,
    the tool calls ([JNull] is Python's [None]) and the tokens handed to the
    run manager. *)
Record StreamState := {
  inner_completion : string;
  role : json;
  tool_calls : json;
  emitted : list json;
}.

Definition initial_stream_state : StreamState :=
  {| inner_completion := ""; role := JStr "assistant"; tool_calls := JNull; emitted := [] |}.

(** [inner_completion += token or ''] *)
Definition append_token (inner : string) (token : json) : result string :=
  match Py.or token (JStr "") with
  | JStr t => Ok (inner +:+ t)
  | _ => Raise TypeError
  end.

(** [if run_manager: run_manager.on_llm_new_token(token)] *)
Definition on_llm_new_token (run_manager : bool) (token : json) (emitted : list json)
  : list json :=
  if run_manager then emitted ++ [token] else emitted.

(** A loop over the items of a stream; the first exception ends it. *)
Fixpoint run_stream {C} (step : StreamState -> C -> result StreamState)
    (st : StreamState) (chunks : list C) : result StreamState :=
  match chunks with
  | [] => Ok st
  | c :: rest => st' ← step st c; run_stream step st' rest
  end.

(** A stream as its consumer sees it: the items delivered and, when the
    transport fails in the middle, the exception that ends it. *)
Record Stream (C : Type) := {
  delivered : list C;
  failure : option exn;
}.
Arguments delivered {C} _.
Arguments failure {C} _.

Definition stream_end {C} (s : Stream C) : result unit :=
  match failure s with
  | Some e => Raise e
  | None => Ok ()
  end.

(** A response object of the SDK. *)
Record SdkResponse := {
  status_code : Z;
  code : string;
  sdk_message : string;
  output : json;
  usage : json;
}.

Definition sdk_error (r : SdkResponse) : exn :=
  Exception_ (JStr ("Error: " +:+ code r +:+ ", " +:+ sdk_message r)).

(** The keywords of a call [f(k1=v1, ..., **parameters)]: a keyword given
    twice is a [TypeError]. *)
Definition call_keywords (explicit : list (string * json)) (parameters : gmap string json)
  : result (gmap string json) :=
  if existsb (fun kv => bool_decide (is_Some (parameters !! kv.1))) explicit
  then Raise TypeError
  else Ok (list_to_map explicit ∪ parameters).

Definition sdk_chunk_step (run_manager : bool) (st : StreamState) (chunk : SdkResponse)
  : result StreamState :=
  if status_code chunk =? 200 then
    choices ← Py.attr (output chunk) "choices";
    choice ← Py.first choices;
    m ← Py.getitem choice "message";
    role ← Py.get_method m "role" (role st);
    token ← Py.get_method m "content" (JStr "");
    inner ← append_token (inner_completion st) token;
    Ok {| inner_completion := inner; role := role; tool_calls := tool_calls st;
          emitted := on_llm_new_token run_manager token (emitted st) |}
  else Raise (sdk_error chunk).

(** The [parameters] that [_generate_with_sdk] prepares. *)
Definition sdk_parameters (self : ChatQWen) (params : gmap string json)
  : gmap string json :=
  let parameters : gmap string json :=
    <["repetition_penalty" := Py.get params "repetition_penalty" (repetition_penalty self)]>
      (<["max_tokens" := Py.get params "max_tokens" (max_tokens self)]>
         (<["seed" := Py.get params "seed" (seed self)]>
            (<["top_k" := Py.get params "top_k" (top_k self)]>
               (<["top_p" := Py.get params "top_p" (top_p self)]>
                  {["temperature" := Py.get params "temperature" (temperature self)]})))) in
  let parameters := copy_key "enable_search" params parameters in
  let parameters := copy_key "result_format" params parameters in
  let parameters := copy_key "response_format" params parameters in
  parameters ∪ model_kwargs self.

(** The keywords of [Generation.call(model=..., messages=...,
    result_format='message', [stream=True,] **parameters)]. *)
Definition sdk_keywords (self : ChatQWen) (messages : list (gmap string json))
    (params : gmap string json) (stream : bool) : result (gmap string json) :=
  let explicit : list (string * json) :=
    [("model", JStr (model_name self)); ("messages", JList (JDict <$> messages));
     ("result_format", JStr "message")]
    ++ (if stream then [("stream", JBool true)] else []) in
  call_keywords explicit (sdk_parameters self params).

Section Sdk.
(** [Generation.call] of the SDK by the keywords it is given: one response,
    or with [stream=True] the stream of chunks. *)
Variable generation_call : gmap string json -> result SdkResponse.
Variable generation_stream : gmap string json -> result (Stream SdkResponse).

(** [_generate_with_sdk]: the result and, for a call that returns, the
    tokens it gave to the run manager. *)
Definition _generate_with_sdk (self : ChatQWen) (messages : list (gmap string json))
    (params : gmap string json) (run_manager : bool) : result (ChatResult * list json) :=
  if streaming self && Py.truthy (Py.get params "stream" JNull) then
    kw ← sdk_keywords self messages params true;
    response ← generation_stream kw;
    st ← run_stream (sdk_chunk_step run_manager) initial_stream_state (delivered response);
    _ ← stream_end response;
    let message := AIMessage (JStr (inner_completion st)) ∅ (Some (role st)) in
    Ok ({| generations := [generation_of message]; llm_output := None |}, emitted st)
  else
    kw ← sdk_keywords self messages params false;
    response ← generation_call kw;
    if status_code response =? 200
    then r ← _create_chat_result self (output response) (usage response); Ok (r, [])
    else Raise (sdk_error response).

End Sdk.

(* ===================================================================== *)
(** * The generation entry points *)
(* ===================================================================== *)

Fixpoint convert_messages (messages : list BaseMessage) : result (list (gmap string json)) :=
  match messages with
  | [] => Ok []
  | m :: rest =>
      d ← _convert_message_to_dict m;
      ds ← convert_messages rest;
      Ok (d :: ds)
  end.

Definition _create_message_dicts (self : ChatQWen) (messages : list BaseMessage)
    (stop : option json) : result (list (gmap string json) * gmap string json) :=
  let params := _client_params self in
  params ← match stop with
           | Some stop =>
               if bool_decide (is_Some (params !! "stop"))
               then Raise (ValueError "`stop` found in both the input and default params.")
               else Ok (<["stop" := stop]> params)
           | None => Ok params
           end;
  message_dicts ← convert_messages messages;
  Ok (message_dicts, params).

(** The keywords of [self.completion_with_retry(messages=message_dicts,
    **params)], and of its asynchronous sibling. *)
Definition completion_keywords (message_dicts : list (gmap string json))
    (params : gmap string json) : result (gmap string json) :=
  if bool_decide (is_Some (params !! "self")) then Raise TypeError
  else call_keywords [("messages", JList (JDict <$> message_dicts))] params.

(** What a generation call leaves behind besides its result: the client
    object and the log of the retried call. *)
Record Effects := {
  self_after : ChatQWen;
  retry_log : RetryLog;
}.

Definition no_effects (self : ChatQWen) : Effects :=
  {| self_after := self; retry_log := empty_log |}.

Section Generate.
Variable globals : Namespace.
Variable transport : nat -> Request -> result json.
Variable generation_call : gmap string json -> result SdkResponse.
Variable generation_stream : gmap string json -> result (Stream SdkResponse).

(** [_generate]: the result (with the tokens given to the run manager, for
    a call that returns) and the effects. *)
Definition _generate (self : ChatQWen) (messages : list BaseMessage)
    (stop : option json) (run_manager : bool) (kwargs : gmap string json)
    (fuel : nat) : option (result (ChatResult * list json) * Effects) :=
  match _create_message_dicts self messages stop with
  | Ok (message_dicts, params) =>
      let params := Py.merge params kwargs in
      if use_dashscope_sdk self then
        Some (_generate_with_sdk generation_call generation_stream self message_dicts
                params run_manager,
              no_effects self)
      else
        match completion_keywords message_dicts params with
        | Ok kw =>
            match completion_with_retry globals transport self kw fuel with
            | None => None
            | Some (r, self', log) =>
                Some ('(output, usage) ← r;
                      res ← _create_chat_result self' output usage;
                      Ok (res, []),
                      {| self_after := self'; retry_log := log |})
            end
        | Raise e => Some (Raise e, no_effects self)
        | Unmodelled => Some (Unmodelled, no_effects self)
        end
  | Raise e => Some (Raise e, no_effects self)
  | Unmodelled => Some (Unmodelled, no_effects self)
  end.

End Generate.

(* ===================================================================== *)
(** * The asynchronous path *)
(* ===================================================================== *)

(** [tool_calls[0]['arguments'] += _tool_calls[0]['arguments']]: the
    accumulator after the statement. *)
Definition merge_arguments (tool_calls _tool_calls : json) : result json :=
  acc ← Py.first tool_calls;
  old ← Py.getitem acc "arguments";
  new ← Py.first _tool_calls;
  fragment ← Py.getitem new "arguments";
  sum ← Py.iadd old fragment;
  match tool_calls, acc with
  | JList (_ :: rest), JDict d => Ok (JList (JDict (<["arguments" := sum]> d) :: rest))
  | _, _ => Raise TypeError
  end.

(** [if _tool_calls: ...]: the accumulator after the statement. *)
Definition accumulate_tool_calls (tool_calls _tool_calls : json) : result json :=
  if Py.truthy _tool_calls then
    match tool_calls with
    | JNull => Ok _tool_calls
    | _ => merge_arguments tool_calls _tool_calls
    end
  else Ok tool_calls.

(** The body of [for choice in choices] in [_agenerate]. *)
Definition choice_step (run_manager : bool) (st : StreamState) (choice : json)
  : result StreamState :=
  m ← Py.getitem choice "message";
  role ← Py.get_method m "role" (role st);
  token ← Py.get_method m "content" (JStr "");
  inner ← append_token (inner_completion st) token;
  _tool_calls ← Py.get_method m "tool_calls" JNull;
  let emitted := on_llm_new_token run_manager token (emitted st) in
  tool_calls ← accumulate_tool_calls (tool_calls st) _tool_calls;
  Ok {| inner_completion := inner; role := role; tool_calls := tool_calls;
        emitted := emitted |}.

(** The keywords with which [_agenerate] calls [acompletion_with_retry]. *)
Definition agenerate_keywords (self : ChatQWen) (messages : list BaseMessage)
    (stop : option json) (kwargs : gmap string json) : result (gmap string json) :=
  '(message_dicts, params) ← _create_message_dicts self messages stop;
  let params := Py.merge params kwargs in
  let params := if streaming self then <["stream" := JBool true]> params else params in
  completion_keywords message_dicts params.

Section Async.
(** [json.loads], with [None] for a text that is not JSON. *)
Variable json_loads : string -> option json.
(** [acompletion_with_retry], which the module does not define: the stream
    of pairs [(is_error, stream_resp)] it yields for the keywords given. *)
Variable acompletion_with_retry : ChatQWen -> gmap string json -> result (Stream (bool * string)).

Definition loads (text : string) : result json :=
  match json_loads text with
  | Some v => Ok v
  | None => Raise (ValueError "JSONDecodeError")
  end.

(** The choices that one item of the stream carries: the part of the loop
    body before [for choice in choices]. *)
Definition item_choices (item : bool * string) : result (list json) :=
  let '(is_error, stream_resp) := item in
  msg ← loads stream_resp;
  if is_error : bool then Raise (ValueError stream_resp)
  else
    has_output ← Py.contains "output" msg;
    output ← (if has_output : bool then Py.getitem msg "output" else Ok JNull);
    choices ← Py.get_method output "choices" JNull;
    if Py.truthy choices then Py.iter choices else Ok [].

(** The body of [async for is_error, stream_resp in ...]. *)
Definition item_step (run_manager : bool) (st : StreamState) (item : bool * string)
  : result StreamState :=
  choices ← item_choices item;
  run_stream (choice_step run_manager) st choices.

Definition assembled_dict (st : StreamState) : gmap string json :=
  <["tool_calls" := tool_calls st]>
    (<["role" := role st]> {["content" := JStr (inner_completion st)]}).

Definition _agenerate (self : ChatQWen) (messages : list BaseMessage)
    (stop : option json) (run_manager : bool) (kwargs : gmap string json)
  : result (ChatResult * list json) :=
  kw ← agenerate_keywords self messages stop kwargs;
  response ← acompletion_with_retry self kw;
  if streaming self then
    st ← run_stream (item_step run_manager) initial_stream_state (delivered response);
    _ ← stream_end response;
    message ← _convert_dict_to_message (assembled_dict st);
    Ok ({| generations := [generation_of message]; llm_output := None |}, emitted st)
  else
    _ ← stream_end response;
    match delivered response with
    | [] => Raise IndexError
    | (_, first) :: _ =>
        response ← loads first;
        output ← Py.get_method response "output" JNull;
        usage ← Py.get_method response "usage" JNull;
        res ← _create_chat_result self output usage;
        Ok (res, [])
    end.

End Async.

(* ===================================================================== *)
(** * The token accountant *)
(* ===================================================================== *)

(** The order in which [_convert_message_to_dict] inserts the keys of a wire
    message, which is the order [message.items()] visits them in. *)
Definition wire_keys : list string :=
  ["role"; "content"; "function_call"; "tool_calls"; "tool_call_id"; "name"].

Definition items (message : gmap string json) : list (string * json) :=
  omap (fun key => (fun value => (key, value)) <$> message !! key) wire_keys.

Section Tokens.
(** The tiktoken package: whether it can be imported, its encodings, the
    lookup of an encoding by model name ([None] is its [KeyError]), the
    lookup by encoding name, and [Encoding.encode] on a text. *)
Variable tiktoken_installed : bool.
Variable Encoding : Type.
Variable encoding_for_model : string -> option Encoding.
Variable get_encoding : string -> Encoding.
Variable encode : Encoding -> string -> result (list Z).
(** [sys.version_info[1]] and the method of the base class. *)
Variable version_minor : Z.
Variable super_get_num_tokens_from_messages : list BaseMessage -> result Z.

Definition _import_tiktoken : result unit :=
  if tiktoken_installed then Ok ()
  else Raise (ValueError "Could not import tiktoken python package.").

Definition _get_encoding_model (self : ChatQWen) : result (string * Encoding) :=
  _ ← _import_tiktoken;
  let model :=
    match tiktoken_model_name self with
    | Some name => name
    | None => model_name self
    end in
  match encoding_for_model model with
  | Some encoding => Ok (model, encoding)
  | None => Ok ("cl100k_base", get_encoding "cl100k_base")
  end.

(** [encoding.encode(value)]: only a text can be encoded. *)
Definition encode_value (encoding : Encoding) (value : json) : result (list Z) :=
  match value with
  | JStr text => encode encoding text
  | _ => Raise TypeError
  end.

(** The body of [for key, value in message.items()]. *)
Fixpoint count_items (encoding : Encoding) (tokens_per_name : Z)
    (kvs : list (string * json)) (num_tokens : Z) : result Z :=
  match kvs with
  | [] => Ok num_tokens
  | (key, value) :: rest =>
      toks ← encode_value encoding value;
      let num_tokens := num_tokens + Z.of_nat (length toks) in
      let num_tokens :=
        if String.eqb key "name" then num_tokens + tokens_per_name else num_tokens in
      count_items encoding tokens_per_name rest num_tokens
  end.

(** The body of [for message in messages_dict]. *)
Fixpoint count_messages (encoding : Encoding) (tokens_per_message tokens_per_name : Z)
    (messages_dict : list (gmap string json)) (num_tokens : Z) : result Z :=
  match messages_dict with
  | [] => Ok num_tokens
  | message :: rest =>
      n ← count_items encoding tokens_per_name (items message)
            (num_tokens + tokens_per_message);
      count_messages encoding tokens_per_message tokens_per_name rest n
  end.

Definition get_num_tokens_from_messages (self : ChatQWen) (messages : list BaseMessage)
  : result Z :=
  if version_minor <=? 7 then super_get_num_tokens_from_messages messages
  else
    '(model, encoding) ← _get_encoding_model self;
    if Py.startswith model "chatglm" then
      let tokens_per_message := 4 in
      let tokens_per_name := -1 in
      messages_dict ← convert_messages messages;
      num_tokens ← count_messages encoding tokens_per_message tokens_per_name
                     messages_dict 0;
      Ok (num_tokens + 3)
    else Raise (NotImplementedError model).

End Tokens.

(* ===================================================================== *)
(** * Statements: what the properties below are stated with *)
(* ===================================================================== *)

(** ** The wire converter *)

(** To the wire shape and back. *)
Definition roundtrip (m : BaseMessage) : result BaseMessage :=
  d ← _convert_message_to_dict m; _convert_dict_to_message d.

(** The role names that [_convert_dict_to_message] maps to a class of their
    own. *)
Definition known_role (r : json) : bool :=
  Py.eq_str r "user" || Py.eq_str r "assistant" || Py.eq_str r "system"
  || Py.eq_str r "function" || Py.eq_str r "tool".

(** A message that holds nothing but what its kind carries on the wire. *)
Definition carried (m : BaseMessage) : Prop :=
  match m with
  | ChatMessage _ r ak => ak = ∅ ∧ known_role r = false
  | HumanMessage _ ak | SystemMessage _ ak
  | FunctionMessage _ _ ak | ToolMessage _ _ ak => ak = ∅
  | AIMessage c ak r =>
      r = None
      ∧ Py.or c (JStr "") = c
      ∧ dom ak ⊆ ({["function_call"; "tool_calls"]} : gset string)
      ∧ (∀ fc, ak !! "function_call" = Some fc → ∃ d, fc = JDict d)
  | OtherMessage _ _ => False
  end.

Definition a_function_call : json :=
  JDict (<["arguments" := JStr "{}"]> {["name" := JStr "lookup"]}).

Definition a_tool_calls : json :=
  JList [JDict (<["arguments" := JStr "{}"]> {["id" := JStr "call_1"]})].

(** An assistant message with [name], [function_call] and [tool_calls] all
    populated. *)
Definition assistant_all_fields : BaseMessage :=
  AIMessage (JStr "hi")
    (<["name" := JStr "bob"]>
       (<["function_call" := a_function_call]> {["tool_calls" := a_tool_calls]}))
    None.

(** The same message without the [name]. *)
Definition assistant_calls_only : BaseMessage :=
  AIMessage (JStr "hi")
    (<["function_call" := a_function_call]> {["tool_calls" := a_tool_calls]})
    None.

(** A wire assistant message that carries only a function call. *)
Definition wire_null_content : gmap string json :=
  <["function_call" := a_function_call]>
    (<["content" := JNull]> {["role" := JStr "assistant"]}).

(** ** The retry engine and the raw-HTTP path *)

(** The delay that the specification gives for the sleep before attempt
    [i]: [min(max_backoff, min_backoff * multiplier^(i-2))], the multiplier
    being 2. *)
Definition backoff_before (min_backoff max_backoff multiplier : Z) (i : nat) : Z :=
  Z.min max_backoff (min_backoff * multiplier ^ (Z.of_nat i - 2)).

(** A client in raw-HTTP mode, as [__init__] builds it for the key
    [sk-test], with its [max_retries]. *)
Definition raw_fields (max_retries : option Z) : ChatQWen :=
  {| client := None; model_name := "qwen-turbo"; temperature := JFloat 95 (-2);
     top_p := JFloat 8 (-1); repetition_penalty := JFloat 11 (-1);
     top_k := JNull; seed := JInt 1234; model_kwargs := ∅;
     dashscope_api_key := None; max_retries := max_retries; streaming := false;
     max_tokens := JInt 1024; result_format := JStr "message";
     tiktoken_model_name := None; use_dashscope_sdk := false |}.

Definition built_headers : gmap string string :=
  <["Content-Type" := "application/json"]> {["Authorization" := "Bearer sk-test"]}.

Definition raw_self (max_retries : option Z) : ChatQWen :=
  {| client := Some {| headers := built_headers |};
     model_name := "qwen-turbo"; temperature := JFloat 95 (-2);
     top_p := JFloat 8 (-1); repetition_penalty := JFloat 11 (-1);
     top_k := JNull; seed := JInt 1234; model_kwargs := ∅;
     dashscope_api_key := Some "sk-test"; max_retries := max_retries; streaming := false;
     max_tokens := JInt 1024; result_format := JStr "message";
     tiktoken_model_name := None; use_dashscope_sdk := false |}.

(** The same client after something has set an [Accept] header on it. *)
Definition raw_self_accepting : ChatQWen :=
  set_client (Some {| headers := <["Accept" := "text/event-stream"]> built_headers |})
    (raw_self (Some 3)).

(** A remote service that is down: every request raises. *)
Definition transport_down : nat -> Request -> result json :=
  fun _ _ => Raise (RemoteError "connection refused").

(** A remote service that answers every request with the same body. *)
Definition transport_answering (body : json) : nat -> Request -> result json :=
  fun _ _ => Ok body.

Definition one_user_message : list BaseMessage := [HumanMessage (JStr "hello") ∅].

Definition some_keywords : gmap string json :=
  {["messages" := JList [JDict (role_content (JStr "user") (JStr "hello"))]]}.

(** The failure envelope of a request that content inspection rejected. *)
Definition rejection_body : json :=
  JDict (<["message" := JStr "blocked"]> {["code" := JStr "DataInspectionFailed"]}).

(** The failure envelope of any other failure. *)
Definition failure_body : json :=
  JDict (<["message" := JStr "Invalid API-key provided."]> {["code" := JStr "InvalidApiKey"]}).

(** A success envelope. *)
Definition success_body : json :=
  JDict (<["usage" := JDict {["total_tokens" := JInt 7]}]>
           {["output" := JDict {["choices" :=
               JList [JDict {["message" :=
                 JDict (role_content (JStr "assistant") (JStr "hi"))]}]]}]}).

(** No SDK is involved in raw-HTTP mode. *)
Definition no_sdk_call : gmap string json -> result SdkResponse :=
  fun _ => Raise (RemoteError "unused").
Definition no_sdk_stream : gmap string json -> result (Stream SdkResponse) :=
  fun _ => Raise (RemoteError "unused").

(** A client in SDK mode, as [__init__] leaves it for the key [sk-test]. *)
Definition sdk_self : ChatQWen :=
  {| client := None; model_name := "qwen-turbo"; temperature := JFloat 95 (-2);
     top_p := JFloat 8 (-1); repetition_penalty := JFloat 11 (-1);
     top_k := JNull; seed := JInt 1234; model_kwargs := ∅;
     dashscope_api_key := Some "sk-test"; max_retries := Some 3; streaming := false;
     max_tokens := JInt 1024; result_format := JStr "message";
     tiktoken_model_name := None; use_dashscope_sdk := true |}.

(** An SDK whose response reports a rejection by content inspection. *)
Definition sdk_rejecting : gmap string json -> result SdkResponse :=
  fun _ => Ok {| status_code := 400; code := "DataInspectionFailed";
                 sdk_message := "blocked"; output := JNull; usage := JNull |}.

Definition hello_dicts : list (gmap string json) :=
  [role_content (JStr "user") (JStr "hello")].

(** ** Streaming *)

(** The texts of a list, one after the other. *)
Definition joined (l : list string) : string := foldr String.append "" l.

(** The content token that a chunk message carries: its [content], an absent
    or null one being read as the empty text. *)
Definition carries_token (m : gmap string json) (t : string) : Prop :=
  Py.or (default (JStr "") (m !! "content")) (JStr "") = JStr t.

(** The role after a run of chunk messages: that of the last message that
    has one. *)
Definition carried_role (r : json) (ms : list (gmap string json)) : json :=
  foldl (fun r m => default r (m !! "role")) r ms.

(** The tokens handed to the run manager, when there is one. *)
Definition tokens_given (run_manager : bool) (ms : list (gmap string json)) : list json :=
  if run_manager then (fun m => default (JStr "") (m !! "content")) <$> ms else [].

(** The state of the stream after the messages [ms], whose content tokens
    are [ts], with the tool calls [tc]. *)
Definition advanced (rm : bool) (st : StreamState) (ms : list (gmap string json))
    (ts : list string) (tc : json) : StreamState :=
  {| inner_completion := inner_completion st +:+ joined ts;
     role := carried_role (role st) ms;
     tool_calls := tc;
     emitted := emitted st ++ tokens_given rm ms |}.


(** A choice that holds the message [m]. *)
Definition choice_message (choice : json) (m : gmap string json) : Prop :=
  ∃ c : gmap string json, choice = JDict c ∧ c !! "message" = Some (JDict m).

(** The message [m] has tool calls whose first one is [call], with the
    arguments fragment [a]. *)
Definition carries_fragment (m : gmap string json) (call : gmap string json)
    (rest : list json) (a : string) : Prop :=
  m !! "tool_calls" = Some (JList (JDict call :: rest))
  ∧ call !! "arguments" = Some (JStr a).

(** One choice of a stream as the loop reads it: its message, its content
    token and, when it has tool calls, the arguments fragment of the first. *)
Record Piece := {
  piece_choice : json;
  piece_message : gmap string json;
  piece_token : string;
  piece_fragment : option string;
}.

Definition well_formed (p : Piece) : Prop :=
  choice_message (piece_choice p) (piece_message p)
  ∧ carries_token (piece_message p) (piece_token p)
  ∧ match piece_fragment p with
    | Some a => ∃ call rest, carries_fragment (piece_message p) call rest a
    | None => Py.truthy (default JNull (piece_message p !! "tool_calls")) = false
    end.

(** The accumulator that the specification describes: one entry per
    tool-call id, in the order of first sight, the fragments of an id
    concatenated in arrival order. *)
Fixpoint append_for (id a : string) (acc : list (string * string)) : list (string * string) :=
  match acc with
  | [] => [(id, a)]
  | (id', a') :: acc' =>
      if String.eqb id id' then (id', a' +:+ a) :: acc'
      else (id', a') :: append_for id a acc'
  end.

Definition merged_by_id (fragments : list (string * string)) : list (string * string) :=
  foldl (fun acc f => append_for f.1 f.2 acc) [] fragments.

(** The ids and arguments of a list of tool calls. *)
Definition calls_of (tool_calls : json) : list (string * string) :=
  match tool_calls with
  | JList l =>
      omap (fun call =>
              match call with
              | JDict d =>
                  match d !! "id", d !! "arguments" with
                  | Some (JStr id), Some (JStr a) => Some (id, a)
                  | _, _ => None
                  end
              | _ => None
              end) l
  | _ => []
  end.

Definition tool_calls_of (r : result (ChatResult * list json)) : json :=
  match r with
  | Ok (res, _) =>
      match generations res with
      | [g] => default JNull (additional_kwargs (message g) !! "tool_calls")
      | _ => JNull
      end
  | _ => JNull
  end.


(** The text of one double quote. *)
Definition dq : string := String (Ascii.ascii_of_nat 34) "".

(** A chunk as [acompletion_with_retry] yields it, by the message of its one
    choice. *)
Definition chunk_of (m : gmap string json) : json :=
  JDict {["output" := JDict {["choices" := JList [JDict {["message" := JDict m]}]]}]}.

Definition tool_call (id a : string) : json :=
  JDict (<["arguments" := JStr a]> {["id" := JStr id]}).

(** A decoder for the texts of the streams below, which stand for the JSON
    texts of their chunks. *)
Definition decode (table : list (string * json)) (text : string) : option json :=
  snd <$> find (fun entry => String.eqb entry.1 text) table.

Definition a_client_streaming : ChatQWen :=
  {| client := Some {| headers := built_headers |};
     model_name := "qwen-turbo"; temperature := JFloat 95 (-2);
     top_p := JFloat 8 (-1); repetition_penalty := JFloat 11 (-1);
     top_k := JNull; seed := JInt 1234; model_kwargs := ∅;
     dashscope_api_key := Some "sk-test"; max_retries := Some 3; streaming := true;
     max_tokens := JInt 1024; result_format := JStr "message";
     tiktoken_model_name := None; use_dashscope_sdk := false |}.

(** Three chunks with the content tokens "Hel", "lo" and "". *)
Definition hello_messages : list (gmap string json) :=
  [ <["content" := JStr "Hel"]> {["role" := JStr "assistant"]};
    {["content" := JStr "lo"]};
    {["content" := JStr ""]} ].

Definition hello_table : list (string * json) :=
  [("chunk-1", chunk_of (<["content" := JStr "Hel"]> {["role" := JStr "assistant"]}));
   ("chunk-2", chunk_of {["content" := JStr "lo"]});
   ("chunk-3", chunk_of {["content" := JStr ""]})].


Definition hello_sdk_chunk (m : gmap string json) : SdkResponse :=
  {| status_code := 200; code := ""; sdk_message := "";
     output := JDict {["choices" := JList [JDict {["message" := JDict m]}]]};
     usage := JNull |}.

Definition hello_sdk_stream : gmap string json -> result (Stream SdkResponse) :=
  fun _ => Ok {| delivered := hello_sdk_chunk <$> hello_messages; failure := None |}.


(** The two arguments fragments of the specification. *)
Definition fragment_1 : string := "{" +:+ dq +:+ "a" +:+ dq +:+ ":1".
Definition fragment_2 : string := "," +:+ dq +:+ "b" +:+ dq +:+ ":2}".
Definition fragments_joined : string :=
  "{" +:+ dq +:+ "a" +:+ dq +:+ ":1," +:+ dq +:+ "b" +:+ dq +:+ ":2}".

(** Two chunks that carry the two fragments under the same id. *)
Definition same_id_messages : list (gmap string json) :=
  [ {["tool_calls" := JList [tool_call "call_a" fragment_1]]};
    {["tool_calls" := JList [tool_call "call_a" fragment_2]]} ].

Definition same_id_table : list (string * json) :=
  [("chunk-1", chunk_of {["tool_calls" := JList [tool_call "call_a" fragment_1]]});
   ("chunk-2", chunk_of {["tool_calls" := JList [tool_call "call_a" fragment_2]]})].

(** Two chunks that carry a fragment each, under different ids. *)
Definition two_ids_table : list (string * json) :=
  [("chunk-1", chunk_of {["tool_calls" := JList [tool_call "call_a" "{}"]]});
   ("chunk-2", chunk_of {["tool_calls" := JList [tool_call "call_b" "{}"]]})].

Definition two_items : Stream (bool * string) :=
  {| delivered := [(false, "chunk-1"); (false, "chunk-2")]; failure := None |}.

Definition yielding (s : Stream (bool * string))
  : ChatQWen -> gmap string json -> result (Stream (bool * string)) :=
  fun _ _ => Ok s.

(** The piece that a chunk with the one message [m] contributes. *)
Definition piece_of (m : gmap string json) (t : string) (f : option string) : Piece :=
  {| piece_choice := JDict {["message" := JDict m]}; piece_message := m;
     piece_token := t; piece_fragment := f |}.

Definition hello_pieces : list Piece :=
  [ piece_of (<["content" := JStr "Hel"]> {["role" := JStr "assistant"]}) "Hel" None;
    piece_of {["content" := JStr "lo"]} "lo" None;
    piece_of {["content" := JStr ""]} "" None ].

Definition same_id_first : Piece :=
  piece_of {["tool_calls" := JList [tool_call "call_a" fragment_1]]} "" (Some fragment_1).

Definition same_id_second : Piece :=
  piece_of {["tool_calls" := JList [tool_call "call_a" fragment_2]]} "" (Some fragment_2).

(** ** The token accountant *)

Definition total (l : list Z) : Z := foldr Z.add 0 l.

Section CountStatement.
Context {Encoding : Type}.
Variable encode : Encoding -> string -> result (list Z).
Variable encoding : Encoding.

(** The token count of one field value encoded on its own. *)
Definition value_tokens (value : json) : Z :=
  match value with
  | JStr text =>
      match encode encoding text with
      | Ok toks => Z.of_nat (length toks)
      | _ => 0
      end
  | _ => 0
  end.

(** Every field value of the wire message is a text that the encoding
    accepts. *)
Definition encodable (message : gmap string json) : Prop :=
  ∀ key value, message !! key = Some value →
    ∃ text toks, value = JStr text ∧ encode encoding text = Ok toks.

(** The count that the specification gives: per message a fixed overhead,
    the tokens of every field value, and an adjustment when there is a
    name; after all messages the overhead of priming the reply. *)
Definition message_count (per_message per_name : Z) (message : gmap string json) : Z :=
  per_message
  + total ((fun kv => value_tokens kv.2) <$> map_to_list message)
  + (if decide (is_Some (message !! "name")) then per_name else 0).

(** What the loop of [get_num_tokens_from_messages] adds for one entry. *)
Definition entry_cost (per_name : Z) (kv : string * json) : Z :=
  value_tokens kv.2 + (if String.eqb kv.1 "name" then per_name else 0).

Definition messages_count (per_message per_name priming : Z)
    (messages_dict : list (gmap string json)) : Z :=
  total (message_count per_message per_name <$> messages_dict) + priming.

End CountStatement.

(** A toy tiktoken: it knows the models whose name starts with "chatglm" or
    "gpt", and encodes a text into its character codes. *)
Definition toy_encoding_for_model (model : string) : option unit :=
  if Py.startswith model "chatglm" || Py.startswith model "gpt" then Some () else None.

Fixpoint character_codes (text : string) : list Z :=
  match text with
  | EmptyString => []
  | String c rest => Z.of_nat (Ascii.nat_of_ascii c) :: character_codes rest
  end.

Definition toy_encode (_ : unit) (text : string) : result (list Z) :=
  Ok (character_codes text).

Definition chatglm_self : ChatQWen :=
  {| client := None; model_name := "qwen-turbo"; temperature := JFloat 95 (-2);
     top_p := JFloat 8 (-1); repetition_penalty := JFloat 11 (-1);
     top_k := JNull; seed := JInt 1234; model_kwargs := ∅;
     dashscope_api_key := Some "sk-test"; max_retries := Some 3; streaming := false;
     max_tokens := JInt 1024; result_format := JStr "message";
     tiktoken_model_name := Some "chatglm-std"; use_dashscope_sdk := true |}.

Definition no_super : list BaseMessage -> result Z :=
  fun _ => Raise (RemoteError "unused").

Definition two_messages : list BaseMessage :=
  [ SystemMessage (JStr "be brief") ∅;
    HumanMessage (JStr "hello") {["name" := JStr "bob"]} ].

Definition two_dicts : list (gmap string json) :=
  [ role_content (JStr "system") (JStr "be brief");
    <["name" := JStr "bob"]> (role_content (JStr "user") (JStr "hello")) ].

(** The result that the specification describes for a rejected request:
    one generation, an assistant message with the rejection text, the finish
    reason "stop", and a usage record of prompt, completion and total
    tokens. *)
Definition masked_as_specified (m : string) (res : ChatResult) : Prop :=
  ∃ g info,
    generations res = [g]
    ∧ message g = AIMessage (JStr m) ∅ None
    ∧ generation_info g = Some info
    ∧ info !! "finish_reason" = Some (JStr "stop")
    ∧ ∃ out : gmap string json,
        llm_output res = Some out
        ∧ out !! "token_usage"
          = Some (JDict (<["prompt_tokens" := JInt 1]>
                           (<["completion_tokens" := JInt 1]> {["total_tokens" := JInt 2]}))).





(* ===================================================================== *)
(** * Statements of the further properties *)
(* ===================================================================== *)

(** The request that the calls below post. *)
Definition hello_request : Request :=
  {| req_headers := delete "Accept" built_headers; req_url := url;
     req_json :=
       JDict (<["model" := JStr "qwen-turbo"]>
                (<["parameters" := JDict ∅]> {["input" := JDict some_keywords]})) |}.

(** A remote service that is down for the first two requests of a call and
    then answers with [body]. *)
Definition transport_recovering (body : json) : nat -> Request -> result json :=
  fun i _ => if (i <? 3)%nat then Raise (RemoteError "connection refused") else Ok body.

(** A transport interrupted from the keyboard. *)
Definition transport_interrupted : nat -> Request -> result json :=
  fun _ _ => Raise KeyboardInterrupt.

(** A client of a bailian model. *)
Definition bailian_self : ChatQWen :=
  {| client := Some {| headers := built_headers |};
     model_name := "bailian-v1"; temperature := JFloat 95 (-2);
     top_p := JFloat 8 (-1); repetition_penalty := JFloat 11 (-1);
     top_k := JNull; seed := JInt 1234; model_kwargs := ∅;
     dashscope_api_key := Some "sk-test"; max_retries := Some 3; streaming := false;
     max_tokens := JInt 1024; result_format := JStr "message";
     tiktoken_model_name := None; use_dashscope_sdk := false |}.

(** ** The wire converter *)

(** The keys that [_convert_dict_to_message] subscripts, in the order in
    which it does. *)
Definition required_keys (d : gmap string json) : list string :=
  "role" :: "content"
  :: match d !! "role" with
     | Some r =>
         if Py.eq_str r "function" then ["name"]
         else if Py.eq_str r "tool" then ["tool_call_id"]
         else []
     | None => []
     end.

Definition first_missing (d : gmap string json) : option string :=
  find (fun key => negb (bool_decide (is_Some (d !! key)))) (required_keys d).

(** The [name] that a message has of its own: only a function message. *)
Definition own_name (m : BaseMessage) : option json :=
  match m with
  | FunctionMessage _ n _ => Some n
  | _ => None
  end.

Definition a_function_message : BaseMessage :=
  FunctionMessage (JStr "42") (JStr "lookup") {["name" := JStr "override"]}.

Definition wire_function_without_name : gmap string json :=
  role_content (JStr "function") (JStr "42").

Definition wire_with_extras : gmap string json :=
  <["name" := JStr "bob"]> (<["note" := JStr "x"]> (role_content (JStr "user") (JStr "hi"))).

(** Keywords of a streaming call that asks for no search. *)
Definition streaming_keywords : gmap string json :=
  <["enable_search" := JBool false]> (<["stream" := JBool true]> {["top_p" := JFloat 5 (-1)]}).

(** A client whose [model_kwargs] hold a [stop]. *)
Definition self_with_stop : ChatQWen :=
  {| client := Some {| headers := built_headers |};
     model_name := "qwen-turbo"; temperature := JFloat 95 (-2);
     top_p := JFloat 8 (-1); repetition_penalty := JFloat 11 (-1);
     top_k := JNull; seed := JInt 1234;
     model_kwargs := {["stop" := JList [JStr "END"]]};
     dashscope_api_key := Some "sk-test"; max_retries := Some 3; streaming := false;
     max_tokens := JInt 1024; result_format := JStr "message";
     tiktoken_model_name := None; use_dashscope_sdk := false |}.

(** An SDK that would answer every call. *)
Definition sdk_answering : gmap string json -> result SdkResponse :=
  fun _ => Ok {| status_code := 200; code := ""; sdk_message := "";
                 output := JDict {["choices" :=
                   JList [JDict {["message" :=
                     JDict (role_content (JStr "assistant") (JStr "hi"))]}]]};
                 usage := JNull |}.

(** A stream whose second item reports an error of the service, and which
    the transport closes afterwards. *)
Definition error_table : list (string * json) :=
  ("quota", JDict {["message" := JStr "quota exceeded"]}) :: hello_table.

Definition items_with_error : Stream (bool * string) :=
  {| delivered := [(false, "chunk-1"); (true, "quota"); (false, "chunk-3")];
     failure := Some (RemoteError "closed") |}.

(** The one item of a plain call that the service answers with an error. *)
Definition error_items : Stream (bool * string) :=
  {| delivered := [(true, "quota"); (false, "chunk-1")]; failure := None |}.

(** The stream that delivers the one text [text], not marked as an error. *)
Definition only (text : string) : Stream (bool * string) :=
  {| delivered := [(false, text)]; failure := None |}.

(** The model name that [_get_encoding_model] asks tiktoken about. *)
Definition tiktoken_name (self : ChatQWen) : string :=
  default (model_name self) (tiktoken_model_name self).

(* ===================================================================== *)
(** * Properties of the wire converter *)
(* ===================================================================== *)

Lemma lookup_copy_key key src dst j :
  copy_key key src dst !! j
  = if decide (key = j) then from_option Some (dst !! j) (src !! key) else dst !! j.
Proof.
  unfold copy_key. destruct (src !! key) as [v|] eqn:E; case_decide; subst; simpl.
  - by rewrite lookup_insert_eq.
  - by rewrite lookup_insert_ne.
  - done.
  - done.
Qed.

Lemma copy_key_absent key src dst : src !! key = None → copy_key key src dst = dst.
Proof. unfold copy_key. by intros ->. Qed.

Lemma lookup_role_content r c j :
  role_content r c !! j
  = if decide (j = "content") then Some c
    else if decide (j = "role") then Some r else None.
Proof.
  unfold role_content. repeat case_decide; subst.
  - by rewrite lookup_insert_eq.
  - rewrite lookup_insert_ne by done. by rewrite lookup_singleton_eq.
  - rewrite lookup_insert_ne by done. by rewrite lookup_singleton_ne.
Qed.

(** The wire shape of an assistant message. *)
Lemma assistant_wire c ak r :
  ak !! "name" = None →
  ∃ d, _convert_message_to_dict (AIMessage c ak r) = Ok d
       ∧ d !! "role" = Some (JStr "assistant")
       ∧ d !! "content" = Some c
       ∧ d !! "function_call" = ak !! "function_call"
       ∧ d !! "tool_calls" = ak !! "tool_calls".
Proof.
  intros Hname. eexists. split.
  { unfold _convert_message_to_dict. simpl. rewrite (copy_key_absent "name") by done.
    reflexivity. }
  rewrite !lookup_copy_key, !lookup_role_content. simpl.
  repeat split; try done.
  - by destruct (ak !! "function_call").
  - by destruct (ak !! "tool_calls").
Qed.

Lemma outside_dom (ak : gmap string json) (allowed : gset string) j :
  dom ak ⊆ allowed → j ∉ allowed → ak !! j = None.
Proof.
  intros Hdom Hj. apply not_elem_of_dom. intros Hin. apply Hj, Hdom, Hin.
Qed.

Lemma roundtrip_assistant c ak :
  Py.or c (JStr "") = c →
  dom ak ⊆ ({["function_call"; "tool_calls"]} : gset string) →
  (∀ fc, ak !! "function_call" = Some fc → ∃ d, fc = JDict d) →
  roundtrip (AIMessage c ak None) = Ok (AIMessage c ak None).
Proof.
  intros Hc Hdom Hfc.
  assert (∀ j, j ≠ "function_call" → j ≠ "tool_calls" → ak !! j = None) as Hother.
  { intros j H1 H2. apply (outside_dom _ _ _ Hdom).
    rewrite elem_of_union, !elem_of_singleton. tauto. }
  assert (ak !! "name" = None) as Hname by by apply Hother.
  destruct (assistant_wire c ak None Hname) as (d & Hd & Hrole & Hcontent & Hf & Ht).
  unfold roundtrip. rewrite Hd. simpl.
  unfold _convert_dict_to_message, Py.item. rewrite Hrole. simpl.
  rewrite Hcontent. simpl. rewrite Hc, Hf.
  destruct (ak !! "function_call") as [fc|] eqn:Efc.
  - destruct (Hfc fc eq_refl) as [fd ->]. simpl. do 2 f_equal.
    apply map_eq. intros j. rewrite lookup_copy_key, Ht.
    case_decide; subst.
    + destruct (ak !! "tool_calls"); simpl; [ done | ].
      by rewrite lookup_singleton_ne.
    + destruct (decide (j = "function_call")) as [->|].
      * by rewrite lookup_singleton_eq.
      * rewrite lookup_singleton_ne by done. symmetry. by apply Hother.
  - simpl. do 2 f_equal.
    apply map_eq. intros j. rewrite lookup_copy_key, Ht.
    case_decide; subst.
    + by destruct (ak !! "tool_calls").
    + rewrite lookup_empty. symmetry.
      destruct (decide (j = "function_call")) as [->|]; [ done | by apply Hother ].
Qed.

Lemma roundtrip_other_role c r :
  known_role r = false → roundtrip (ChatMessage c r ∅) = Ok (ChatMessage c r ∅).
Proof.
  intros Hr. unfold known_role in Hr.
  apply orb_false_elim in Hr as [Hr Htool].
  apply orb_false_elim in Hr as [Hr Hfunction].
  apply orb_false_elim in Hr as [Hr Hsystem].
  apply orb_false_elim in Hr as [Huser Hassistant].
  unfold roundtrip, _convert_message_to_dict. simpl.
  rewrite (copy_key_absent "name") by done. simpl.
  unfold _convert_dict_to_message, Py.item.
  rewrite !lookup_role_content. simpl.
  by rewrite Huser, Hassistant, Hsystem, Hfunction, Htool.
Qed.

(** C5, as amended: for every message that holds nothing but what its kind
    carries on the wire (no additional keyword arguments on a user, system,
    function, tool or other-role message, the last with a role outside the
    five known names; on an assistant message only [function_call], an
    object, and [tool_calls], with a content that [or ''] leaves alone),
    converting to the wire shape and back is the identity; and the wire
    shape of every assistant message without a [name] keyword holds its
    [function_call] and [tool_calls] unchanged. *)
Theorem roundtrip_of_carried_fields :
  (∀ m, carried m → roundtrip m = Ok m)
  ∧ (∀ c ak r, ak !! "name" = None →
       ∃ d, _convert_message_to_dict (AIMessage c ak r) = Ok d
            ∧ d !! "function_call" = ak !! "function_call"
            ∧ d !! "tool_calls" = ak !! "tool_calls").
Proof.
  split.
  - intros [c r ak|c ak|c ak r|c ak|c n ak|c i ak|c ak]; simpl.
    + intros [-> Hr]. by apply roundtrip_other_role.
    + by intros ->.
    + intros (-> & Hc & Hdom & Hfc). by apply roundtrip_assistant.
    + by intros ->.
    + by intros ->.
    + by intros ->.
    + done.
  - intros c ak r Hname.
    destruct (assistant_wire c ak r Hname) as (d & Hd & _ & _ & Hf & Ht). eauto.
Qed.

Lemma roundtrip_of_carried_fields_witness :
  carried assistant_calls_only
  ∧ roundtrip assistant_calls_only = Ok assistant_calls_only.
Proof.
  assert (carried assistant_calls_only) as H.
  { simpl. repeat split.
    - rewrite dom_insert_L, dom_singleton_L. set_solver.
    - intros fc. rewrite lookup_insert_eq. intros [= <-]. by eexists. }
  split; [ exact H | exact (proj1 roundtrip_of_carried_fields _ H) ].
Defined.

(** C5, as stated, fails: an assistant message with [name], [function_call]
    and [tool_calls] all populated comes back without its [name]. *)
Lemma roundtrip_drops_name :
  roundtrip assistant_all_fields = Ok assistant_calls_only
  ∧ roundtrip assistant_all_fields ≠ Ok assistant_all_fields.
Proof.
  assert (roundtrip assistant_all_fields = Ok assistant_calls_only) as H
    by (vm_compute; reflexivity).
  split; [ exact H | ].
  rewrite H. vm_compute. discriminate.
Qed.

(** C10: for every wire assistant message whose content is null, and whose
    [function_call], if any, is an object, converting from the wire shape
    does not fail and yields an assistant message whose content is the empty
    text; converting that message to the wire shape gives the content [""],
    not null. *)
Theorem null_content_becomes_empty (_dict : gmap string json) :
  _dict !! "role" = Some (JStr "assistant") →
  _dict !! "content" = Some JNull →
  (∀ fc, _dict !! "function_call" = Some fc → ∃ d, fc = JDict d) →
  ∃ ak back,
    _convert_dict_to_message _dict = Ok (AIMessage (JStr "") ak None)
    ∧ ak !! "function_call" = _dict !! "function_call"
    ∧ ak !! "tool_calls" = _dict !! "tool_calls"
    ∧ _convert_message_to_dict (AIMessage (JStr "") ak None) = Ok back
    ∧ back !! "content" = Some (JStr "")
    ∧ back !! "content" ≠ _dict !! "content".
Proof.
  intros Hrole Hcontent Hfc.
  set (fcpart := match _dict !! "function_call" with
                 | Some fc => d ← Py.dict fc; Ok ({["function_call" := JDict d]} : gmap string json)
                 | None => Ok ∅
                 end).
  assert (∃ ak0 : gmap string json,
            fcpart = Ok ak0 ∧ ak0 !! "function_call" = _dict !! "function_call"
            ∧ ∀ j, j ≠ "function_call" → ak0 !! j = None) as (ak0 & Hpart & Hf0 & Hn0).
  { subst fcpart. destruct (_dict !! "function_call") as [fc|] eqn:E.
    - destruct (Hfc fc eq_refl) as [fd ->]. simpl. eexists. split; [ done | ].
      split; [ by rewrite lookup_singleton_eq | ].
      intros j Hj. by rewrite lookup_singleton_ne.
    - eexists. split; [ done | ]. split; [ done | ]. intros j _. apply lookup_empty. }
  assert (_convert_dict_to_message _dict
          = Ok (AIMessage (JStr "") (copy_key "tool_calls" _dict ak0) None)) as Hconv.
  { unfold _convert_dict_to_message, Py.item. rewrite Hrole. simpl.
    rewrite Hcontent. simpl. fold fcpart. by rewrite Hpart. }
  assert (copy_key "tool_calls" _dict ak0 !! "name" = None) as Hname.
  { rewrite lookup_copy_key. case_decide; [ done | ]. by apply Hn0. }
  destruct (assistant_wire (JStr "") _ None Hname) as (back & Hb & _ & Hbc & _ & _).
  exists (copy_key "tool_calls" _dict ak0), back.
  split; [ done | ]. split.
  { rewrite lookup_copy_key. by case_decide. }
  split.
  { rewrite lookup_copy_key. case_decide; [ | done ].
    destruct (_dict !! "tool_calls"); simpl; [ done | ]. by apply Hn0. }
  split; [ done | ]. split; [ done | ].
  rewrite Hbc, Hcontent. congruence.
Qed.

Lemma null_content_becomes_empty_witness :
  ∃ ak back,
    _convert_dict_to_message wire_null_content = Ok (AIMessage (JStr "") ak None)
    ∧ ak !! "function_call" = wire_null_content !! "function_call"
    ∧ ak !! "tool_calls" = wire_null_content !! "tool_calls"
    ∧ _convert_message_to_dict (AIMessage (JStr "") ak None) = Ok back
    ∧ back !! "content" = Some (JStr "")
    ∧ back !! "content" ≠ wire_null_content !! "content".
Proof.
  apply (null_content_becomes_empty wire_null_content).
  - reflexivity.
  - reflexivity.
  - intros fc. unfold wire_null_content. rewrite lookup_insert_eq.
    intros [= <-]. by eexists.
Defined.

(* ===================================================================== *)
(** * Properties of the retry engine *)
(* ===================================================================== *)

Section RetryFacts.
Context {A : Type}.
Variable max_retries : option Z.
Variable fn : nat -> result A * list Request.

Local Abbreviation wait := (wait_exponential 1 min_seconds max_seconds).

(** Every run of the loop makes at least one attempt and sleeps, before
    each further attempt, the delay computed after the attempt before. *)
Lemma retrying_log fuel :
  ∀ a log0 r log,
    retrying max_retries fn fuel a log0 = Some (r, log) →
    ∃ j, attempts log = (attempts log0 + S j)%nat
         ∧ sleeps log = sleeps log0 ++ (wait <$> seq a j).
Proof.
  induction fuel as [|fuel IH]; intros a log0 r log; simpl; [ done | ].
  destruct (fn a) as [outcome reqs].
  assert (∀ x, Some (x, log_attempt reqs log0) = Some (r, log) →
               ∃ j, attempts log = (attempts log0 + S j)%nat
                    ∧ sleeps log = sleeps log0 ++ (wait <$> seq a j)) as Hstop.
  { intros x [= _ <-]. exists 0%nat. simpl. split; [ lia | by rewrite app_nil_r ]. }
  destruct outcome as [v|e|]; [ by apply Hstop | | by apply Hstop ].
  destruct (negb (is_Exception e)); [ by apply Hstop | ].
  destruct (stop_after_attempt max_retries a) as [[|]|e'|];
    [ by apply Hstop | | by apply Hstop | by apply Hstop ].
  intros Hrun. apply IH in Hrun as (j & Hatt & Hsl).
  exists (S j). simpl in *. split; [ lia | ].
  rewrite Hsl, <- app_assoc. reflexivity.
Qed.

Variable errors : nat -> exn.
Variable reqs : nat -> list Request.
Hypothesis fn_fails : ∀ i, fn i = (Raise (errors i), reqs i).
Hypothesis errors_retried : ∀ i, is_Exception (errors i) = true.

(** When every attempt fails, the loop stops at the first attempt whose
    number reaches the bound, and re-raises the exception of that
    attempt. *)
Lemma retrying_all_fail k fuel :
  ∀ a log0,
    (Z.to_nat (Z.max k (Z.of_nat a)) - a < fuel)%nat →
    let last := Z.to_nat (Z.max k (Z.of_nat a)) in
    ∃ log,
      retrying (Some k) fn fuel a log0 = Some (Raise (errors last), log)
      ∧ attempts log = (attempts log0 + S (last - a))%nat
      ∧ posted log = posted log0 ++ concat (reqs <$> seq a (S (last - a))).
Proof.
  induction fuel as [|fuel IH]; intros a log0 Hfuel last; [ lia | ].
  simpl. rewrite fn_fails, errors_retried. simpl.
  destruct (k <=? Z.of_nat a) eqn:Hstop.
  - apply Z.leb_le in Hstop.
    assert (last = a) as -> by (subst last; lia).
    eexists. split; [ reflexivity | ]. simpl.
    rewrite Nat.sub_diag. simpl. rewrite app_nil_r. split; [ lia | done ].
  - apply Z.leb_gt in Hstop.
    assert (last = Z.to_nat (Z.max k (Z.of_nat (S a)))) as Hlast by (subst last; lia).
    destruct (IH (S a)
                (log_sleep (wait_exponential 1 min_seconds max_seconds a)
                   (log_attempt (reqs a) log0))) as (log & Hrun & Hatt & Hposted).
    { lia. }
    rewrite <- Hlast in Hrun, Hatt, Hposted.
    exists log. split; [ exact Hrun | ]. simpl in Hatt, Hposted.
    assert (last - a = S (last - S a))%nat as -> by (subst last; lia).
    split; [ lia | ].
    rewrite Hposted. simpl. by rewrite <- app_assoc.
Qed.

End RetryFacts.

Lemma wait_exponential_backoff (a : nat) :
  (1 ≤ a)%nat →
  wait_exponential 1 min_seconds max_seconds a
  = backoff_before min_seconds max_seconds 2 (S a).
Proof.
  intros Ha. unfold wait_exponential, backoff_before, min_seconds, max_seconds.
  replace (Z.of_nat (S a) - 2) with (Z.of_nat a - 1) by lia.
  assert (0 < 2 ^ (Z.of_nat a - 1)) by (apply Z.pow_pos_nonneg; lia).
  lia.
Qed.

Lemma concat_singletons {X} (x : X) (l : list nat) :
  concat ((fun _ => [x]) <$> l) = replicate (length l) x.
Proof. induction l as [|y l IH]; simpl; [ done | by f_equal ]. Qed.

(* ===================================================================== *)
(** * Properties of the synchronous raw-HTTP path *)
(* ===================================================================== *)

Lemma completion_as_written transport self kwargs fuel :
  completion_with_retry as_written transport self kwargs fuel
  = Some (Raise (NameError "retry_if_exception_type"), self, empty_log).
Proof. reflexivity. Qed.

(** C3: the module as it is written never starts the retried call.  With a
    transport that fails at every invocation and [max_retries = k], the call
    raises the [NameError] of line 60 before the first attempt: the
    transport is invoked 0 times, whatever [k] is, and the caller does not
    receive the error of the transport. *)
Theorem retry_never_starts k fuel :
  ∃ log,
    completion_with_retry as_written transport_down (raw_self (Some k)) some_keywords fuel
    = Some (Raise (NameError "retry_if_exception_type"), raw_self (Some k), log)
    ∧ attempts log = 0%nat
    ∧ posted log = [].
Proof. exists empty_log. by rewrite completion_as_written. Qed.

(** C4: the module as it is written never sleeps.  With [max_retries = 5]
    and a transport that fails at every invocation, the call raises the
    [NameError] of line 60 before the first attempt: there is no attempt 2,
    3, 4 or 5 and no delay before them. *)
Theorem backoff_never_sleeps :
  ∃ log,
    completion_with_retry as_written transport_down (raw_self (Some 5)) some_keywords 5
    = Some (Raise (NameError "retry_if_exception_type"), raw_self (Some 5), log)
    ∧ attempts log = 0%nat
    ∧ sleeps log = []
    ∧ sleeps log ≠ [1; 2; 4; 8].
Proof. exists empty_log. by rewrite completion_as_written. Qed.

Lemma eq_str_true v s : Py.eq_str v s = true ↔ v = JStr s.
Proof.
  destruct v; simpl; try (split; [ discriminate | congruence ]).
  rewrite String.eqb_eq. split; congruence.
Qed.

Lemma rejected_code (d : gmap string json) :
  d !! "code" = Some (JStr "DataInspectionFailed") → rejected (JDict d) = Ok true.
Proof.
  intros Hcode. unfold rejected, Py.contains, Py.getitem, Py.item. rewrite Hcode.
  by rewrite bool_decide_eq_true_2 by eauto.
Qed.

Lemma rejected_other (d : gmap string json) :
  d !! "code" ≠ Some (JStr "DataInspectionFailed") → rejected (JDict d) = Ok false.
Proof.
  intros Hcode. unfold rejected, Py.contains, Py.getitem, Py.item.
  destruct (d !! "code") as [code|] eqn:E.
  - rewrite bool_decide_eq_true_2 by eauto. simpl. f_equal.
    destruct (Py.eq_str code "DataInspectionFailed") eqn:Heq; [ | done ].
    apply eq_str_true in Heq as ->. by destruct Hcode.
  - by rewrite bool_decide_eq_false_2 by (intros [? ?]; discriminate).
Qed.


(** The chat result built from the stand-in output of a rejected request. *)
Lemma chat_result_of_rejection self m :
  _create_chat_result self (output_res (JStr m)) usage_res
  = Ok {| generations := [generation_of (AIMessage (JStr m) ∅ None)];
          llm_output :=
            Some (<["model_name" := JStr (model_name self)]>
                    {["token_usage" := usage_res]}) |}.
Proof.
  destruct m; vm_compute; reflexivity.
Qed.

(** [_generate] in raw-HTTP mode, once the keywords of the call are built. *)
Lemma _generate_raw globals transport gc gs self messages stop run_manager kwargs
    message_dicts params kw fuel :
  use_dashscope_sdk self = false →
  _create_message_dicts self messages stop = Ok (message_dicts, params) →
  completion_keywords message_dicts (Py.merge params kwargs) = Ok kw →
  _generate globals transport gc gs self messages stop run_manager kwargs fuel
  = match completion_with_retry globals transport self kw fuel with
    | None => None
    | Some (r, self', log) =>
        Some ('(output, usage) ← r;
              res ← _create_chat_result self' output usage;
              Ok (res, []),
              {| self_after := self'; retry_log := log |})
    end.
Proof.
  intros Hsdk Hdicts Hkw. unfold _generate. rewrite Hdicts, Hsdk, Hkw. reflexivity.
Qed.

(** In the module as it is written, a synchronous generation ends without
    a request and without a change of the client object. *)
Lemma generate_as_written transport gc gs self messages stop run_manager kwargs fuel :
  ∃ r, _generate as_written transport gc gs self messages stop run_manager kwargs fuel
       = Some (r, no_effects self)
       ∧ ∀ res, use_dashscope_sdk self = false → r ≠ Ok res.
Proof.
  unfold _generate.
  destruct (_create_message_dicts self messages stop) as [[mds params]|e|];
    [ | by eexists | by eexists ].
  destruct (use_dashscope_sdk self); [ by eexists | ].
  destruct (completion_keywords mds _) as [kw|e|]; [ | by eexists | by eexists ].
  rewrite completion_as_written. by eexists.
Qed.

(** C2, as amended: when the response that the retried call has returned
    carries the code [DataInspectionFailed] and the message text [m], lines
    238-242 return an output with exactly one choice, whose finish reason is
    "stop" and whose message has the role assistant and the content [m], with
    the usage [input_tokens = 1], [output_tokens = 1], [total_tokens = 2];
    and [_create_chat_result] builds from them a result with exactly one
    generation, an assistant message of content [m] without generation
    information, and that usage as its token usage. *)
Theorem rejection_is_masked self (d : gmap string json) m :
  d !! "code" = Some (JStr "DataInspectionFailed") →
  d !! "message" = Some (JStr m) →
  classify_response (JDict d)
  = Ok (JDict {["choices" :=
               JList [JDict (<["message" :=
                                 JDict (<["content" := JStr m]>
                                          {["role" := JStr "assistant"]})]>
                               {["finish_reason" := JStr "stop"]})]]},
        JDict (<["input_tokens" := JInt 1]>
                 (<["output_tokens" := JInt 1]> {["total_tokens" := JInt 2]})))
  ∧ _create_chat_result self
      (JDict {["choices" :=
               JList [JDict (<["message" :=
                                 JDict (<["content" := JStr m]>
                                          {["role" := JStr "assistant"]})]>
                               {["finish_reason" := JStr "stop"]})]]})
      (JDict (<["input_tokens" := JInt 1]>
                (<["output_tokens" := JInt 1]> {["total_tokens" := JInt 2]})))
    = Ok {| generations :=
              [{| message := AIMessage (JStr m) ∅ None; generation_info := None |}];
            llm_output :=
              Some (<["model_name" := JStr (model_name self)]>
                      {["token_usage" :=
                          JDict (<["input_tokens" := JInt 1]>
                                   (<["output_tokens" := JInt 1]>
                                      {["total_tokens" := JInt 2]}))]}) |}.
Proof.
  intros Hcode Hmessage. split.
  - unfold classify_response. rewrite (rejected_code _ Hcode). simpl.
    unfold Py.item. by rewrite Hmessage.
  - exact (chat_result_of_rejection self m).
Qed.

Lemma rejection_is_masked_witness :
  classify_response rejection_body = Ok (output_res (JStr "blocked"), usage_res)
  ∧ _create_chat_result (raw_self (Some 3)) (output_res (JStr "blocked")) usage_res
    = Ok {| generations :=
              [{| message := AIMessage (JStr "blocked") ∅ None; generation_info := None |}];
            llm_output :=
              Some (<["model_name" := JStr "qwen-turbo"]>
                      {["token_usage" := usage_res]}) |}.
Proof.
  apply (rejection_is_masked (raw_self (Some 3))
           (<["message" := JStr "blocked"]> {["code" := JStr "DataInspectionFailed"]})
           "blocked"); vm_compute; reflexivity.
Defined.

(** C2, as stated, fails at the response with the rejection code and the
    text "blocked": the synchronous generation returns no result at all, in
    raw-HTTP mode as in SDK mode; and the result that lines 238-242 and
    [_create_chat_result] build for this response is not the one described:
    its generation has no finish reason, and its usage has the keys
    [input_tokens] and [output_tokens], not [prompt_tokens] and
    [completion_tokens]. *)
Lemma rejection_result_differs :
  (∀ res eff,
     _generate as_written (transport_answering rejection_body) no_sdk_call no_sdk_stream
       (raw_self (Some 3)) one_user_message None false ∅ 1 ≠ Some (Ok res, eff))
  ∧ (∀ res eff,
       _generate as_written (transport_answering rejection_body) sdk_rejecting
         no_sdk_stream sdk_self one_user_message None false ∅ 1 ≠ Some (Ok res, eff))
  ∧ ∃ out usage res,
      classify_response rejection_body = Ok (out, usage)
      ∧ _create_chat_result (raw_self (Some 3)) out usage = Ok res
      ∧ generation_info <$> generations res = [None]
      ∧ (∃ u : gmap string json,
           usage = JDict u
           ∧ u !! "prompt_tokens" = None ∧ u !! "completion_tokens" = None
           ∧ u !! "input_tokens" = Some (JInt 1) ∧ u !! "output_tokens" = Some (JInt 1))
      ∧ ¬ masked_as_specified "blocked" res.
Proof.
  split; [ | split ].
  - intros res eff. vm_compute. discriminate.
  - intros res eff. vm_compute. discriminate.
  - eexists _, _, _. split; [ vm_compute; reflexivity | ].
    split; [ vm_compute; reflexivity | ].
    split; [ reflexivity | ]. split.
    + eexists. split; [ reflexivity | ]. by vm_compute.
    + intros (g & info & Hgens & _ & Hinfo & _).
      cbn [generations] in Hgens. injection Hgens as <-. discriminate.
Qed.

(** Reached through [_generate], the SDK call is given [result_format]
    twice and never takes place. *)
Example sdk_generate_keyword_clash :
  _generate as_written transport_down sdk_rejecting no_sdk_stream sdk_self one_user_message
    None false ∅ 1
  = Some (Raise TypeError, no_effects sdk_self).
Proof. vm_compute. reflexivity. Qed.

(** C9: the module as it is written never sees the response.  In raw-HTTP
    mode, with a service that would answer with neither the rejection code
    nor an [output] but the message "Invalid API-key provided.", the
    generation raises the [NameError] of line 60 before any request is
    posted: the error does not carry the message of the service. *)
Theorem missing_envelope_never_seen :
  _generate as_written (transport_answering failure_body) no_sdk_call no_sdk_stream
    (raw_self (Some 3)) one_user_message None false ∅ 1
  = Some (Raise (NameError "retry_if_exception_type"),
          {| self_after := raw_self (Some 3);
             retry_log := {| attempts := 0; posted := []; sleeps := [] |} |})
  ∧ classify_response failure_body
    = Raise (Exception_ (JStr "Invalid API-key provided.")).
Proof. split; vm_compute; reflexivity. Qed.

(* ===================================================================== *)
(** * The client object across a call *)
(* ===================================================================== *)

Lemma set_client_same self : set_client (client self) self = self.
Proof. by destruct self. Qed.

Lemma pop_accept_absent c : headers c !! "Accept" = None → pop_accept c = c.
Proof. destruct c as [h]. unfold pop_accept. simpl. intros H. by rewrite delete_id. Qed.

(** What [_generate] leaves of the client object. *)
Lemma generate_self_after globals transport gc gs self messages stop run_manager kwargs
    fuel r eff :
  _generate globals transport gc gs self messages stop run_manager kwargs fuel
  = Some (r, eff) →
  self_after eff = self
  ∨ ∃ c, client self = Some c ∧ self_after eff = set_client (Some (pop_accept c)) self.
Proof.
  unfold _generate.
  destruct (_create_message_dicts self messages stop) as [[mds params]|e|];
    [ | intros [= _ <-]; by left | intros [= _ <-]; by left ].
  destruct (use_dashscope_sdk self); [ intros [= _ <-]; by left | ].
  destruct (completion_keywords mds _) as [kw|e|];
    [ | intros [= _ <-]; by left | intros [= _ <-]; by left ].
  unfold completion_with_retry.
  destruct (_create_retry_decorator globals self) as [retry_decorator|e|];
    [ | intros [= _ <-]; by left | intros [= _ <-]; by left ].
  destruct (client self) as [c|] eqn:Hc; [ | intros [= _ <-]; by left ].
  destruct (retried_response _ _ _ _ _ _) as [[r0 log]|]; [ | done ].
  intros [= _ <-]. right. by exists c.
Qed.

Lemma init_raw_headers fields key_kwarg key_env self :
  init fields key_kwarg key_env = Ok self →
  use_dashscope_sdk fields = false →
  ∃ key, client self
         = Some {| headers := <["Content-Type" := "application/json"]>
                                {["Authorization" := "Bearer " +:+ key]} |}.
Proof.
  unfold init. destruct (get_from_dict_or_env key_kwarg key_env) as [key|e|]; [ | done | done ].
  intros Hinit Hsdk. rewrite Hsdk in Hinit. injection Hinit as <-. by exists key.
Qed.

(** C8: no synchronous generation call of the module as it is written
    changes the client object: whatever the inputs, the call ends (the fuel
    plays no part) with the object, its client and headers among the rest,
    as it was before the call, and with no request posted. *)
Theorem generation_keeps_the_client transport gc gs self messages stop run_manager
    kwargs fuel :
  ∃ r,
    _generate as_written transport gc gs self messages stop run_manager kwargs fuel
    = Some (r, {| self_after := self; retry_log := empty_log |}).
Proof.
  destruct (generate_as_written transport gc gs self messages stop run_manager kwargs fuel)
    as (r & Hrun & _).
  by exists r.
Qed.

(* ===================================================================== *)
(** * Properties of the streaming paths *)
(* ===================================================================== *)

Lemma append_nil_r s : s +:+ "" = s.
Proof.
  induction s as [|a s IH]; [ done | ].
  change (String a (s +:+ "") = String a s). by f_equal.
Qed.

Lemma append_assoc s1 s2 s3 : (s1 +:+ s2) +:+ s3 = s1 +:+ (s2 +:+ s3).
Proof.
  induction s1 as [|a s1 IH]; [ done | ].
  change (String a ((s1 +:+ s2) +:+ s3) = String a (s1 +:+ (s2 +:+ s3))). by f_equal.
Qed.

Lemma get_default (d : gmap string json) k x : Py.get d k x = default x (d !! k).
Proof. unfold Py.get. by destruct (d !! k). Qed.

Lemma append_token_carried inner (m : gmap string json) t :
  carries_token m t →
  append_token inner (default (JStr "") (m !! "content")) = Ok (inner +:+ t).
Proof. unfold carries_token, append_token. by intros ->. Qed.

Lemma tokens_given_cons rm m ms :
  tokens_given rm (m :: ms)
  = on_llm_new_token rm (default (JStr "") (m !! "content")) [] ++ tokens_given rm ms.
Proof. by destruct rm. Qed.

Lemma on_llm_new_token_app rm tok em :
  on_llm_new_token rm tok em = em ++ on_llm_new_token rm tok [].
Proof. destruct rm; simpl; [ done | by rewrite app_nil_r ]. Qed.

Lemma bind_Ok {A B} (a : A) (f : A -> result B) : (Ok a ≫= f) = f a.
Proof. reflexivity. Qed.

Lemma run_stream_cons {C} (step : StreamState -> C -> result StreamState) st c l :
  run_stream step st (c :: l) = (st' ← step st c; run_stream step st' l).
Proof. reflexivity. Qed.

Lemma run_stream_app {C} (step : StreamState -> C -> result StreamState) st l1 l2 :
  run_stream step st (l1 ++ l2) = (st' ← run_stream step st l1; run_stream step st' l2).
Proof.
  revert st. induction l1 as [|c l1 IH]; intros st; simpl; [ done | ].
  destruct (step st c); simpl; [ apply IH | done | done ].
Qed.

Lemma joined_cons t ts : joined (t :: ts) = t +:+ joined ts.
Proof. reflexivity. Qed.

Lemma joined_one t : joined [t] = t.
Proof. unfold joined. cbn [foldr]. apply append_nil_r. Qed.

Lemma tokens_given_one rm m :
  tokens_given rm [m] = on_llm_new_token rm (default (JStr "") (m !! "content")) [].
Proof. by destruct rm. Qed.

Lemma advanced_nil rm st : advanced rm st [] [] (tool_calls st) = st.
Proof.
  destruct st as [i r tc e]. unfold advanced. cbn [inner_completion role tool_calls emitted].
  change (joined []) with "". rewrite append_nil_r.
  change (carried_role r []) with r.
  replace (tokens_given rm []) with (@nil json) by by destruct rm.
  by rewrite app_nil_r.
Qed.

Lemma advanced_one rm st m t tc :
  advanced rm st [m] [t] tc
  = {| inner_completion := inner_completion st +:+ t;
       role := default (role st) (m !! "role");
       tool_calls := tc;
       emitted := on_llm_new_token rm (default (JStr "") (m !! "content")) (emitted st) |}.
Proof.
  unfold advanced. rewrite joined_one, tokens_given_one.
  by rewrite (on_llm_new_token_app _ _ (emitted st)).
Qed.

Lemma advanced_cons rm st m t ms ts tc1 tc :
  advanced rm (advanced rm st [m] [t] tc1) ms ts tc = advanced rm st (m :: ms) (t :: ts) tc.
Proof.
  unfold advanced. cbn [inner_completion role tool_calls emitted].
  rewrite joined_one, joined_cons, append_assoc, tokens_given_one.
  rewrite (tokens_given_cons _ m ms), <- app_assoc. reflexivity.
Qed.

Lemma joined_app l1 l2 : joined (l1 ++ l2) = joined l1 +:+ joined l2.
Proof.
  induction l1 as [|t l1 IH]; [ done | ].
  rewrite <- app_comm_cons, !joined_cons, IH. by rewrite append_assoc.
Qed.

Lemma advanced_app rm st ms1 ts1 tc1 ms2 ts2 tc :
  advanced rm (advanced rm st ms1 ts1 tc1) ms2 ts2 tc
  = advanced rm st (ms1 ++ ms2) (ts1 ++ ts2) tc.
Proof.
  unfold advanced. cbn [inner_completion role tool_calls emitted].
  rewrite joined_app, append_assoc, <- app_assoc. f_equal.
  - unfold carried_role. by rewrite foldl_app.
  - f_equal. unfold tokens_given. destruct rm; [ by rewrite fmap_app | done ].
Qed.

(** ** The loop of the SDK path *)



(** ** The loop of the asynchronous path *)

Lemma choice_step_message rm st choice m t :
  choice_message choice m → carries_token m t →
  choice_step rm st choice
  = (tc ← accumulate_tool_calls (tool_calls st) (default JNull (m !! "tool_calls"));
     Ok (advanced rm st [m] [t] tc)).
Proof.
  intros (c & -> & Hm) Ht. unfold choice_step. simpl.
  unfold Py.item. rewrite Hm. simpl. rewrite !get_default.
  rewrite (append_token_carried _ _ _ Ht). simpl.
  destruct (accumulate_tool_calls _ _); simpl; [ | done | done ].
  by rewrite advanced_one.
Qed.

Lemma accumulate_none acc tc : Py.truthy tc = false → accumulate_tool_calls acc tc = Ok acc.
Proof. unfold accumulate_tool_calls. by intros ->. Qed.

Lemma accumulate_first (call : gmap string json) rest :
  accumulate_tool_calls JNull (JList (JDict call :: rest)) = Ok (JList (JDict call :: rest)).
Proof. reflexivity. Qed.

Lemma accumulate_later (call0 call : gmap string json) rest0 rest a0 a :
  call0 !! "arguments" = Some (JStr a0) →
  call !! "arguments" = Some (JStr a) →
  accumulate_tool_calls (JList (JDict call0 :: rest0)) (JList (JDict call :: rest))
  = Ok (JList (JDict (<["arguments" := JStr (a0 +:+ a)]> call0) :: rest0)).
Proof.
  intros H0 H. unfold accumulate_tool_calls, merge_arguments. simpl.
  unfold Py.item. by rewrite H0, H.
Qed.

(** Before the first tool call, the accumulator stays empty. *)
Lemma run_choices_without_calls rm (ps : list Piece) :
  Forall well_formed ps →
  Forall (fun p => piece_fragment p = None) ps →
  ∀ st, run_stream (choice_step rm) st (piece_choice <$> ps)
        = Ok (advanced rm st (piece_message <$> ps) (piece_token <$> ps) (tool_calls st)).
Proof.
  induction ps as [|p ps IH]; intros Hwf Hnone st; simpl.
  - by rewrite advanced_nil.
  - apply Forall_cons in Hwf as [(Hm & Ht & Hf) Hwf].
    apply Forall_cons in Hnone as [Hp Hnone]. rewrite Hp in Hf.
    rewrite (choice_step_message _ _ _ _ _ Hm Ht), (accumulate_none _ _ Hf). simpl.
    rewrite (IH Hwf Hnone). simpl. by rewrite advanced_cons.
Qed.

(** Once there is an accumulator, every later fragment is appended to the
    arguments of its first tool call. *)
Lemma run_choices_merging rm rest0 (ps : list Piece) :
  Forall well_formed ps →
  ∀ st (call0 : gmap string json) a0,
    tool_calls st = JList (JDict call0 :: rest0) →
    call0 !! "arguments" = Some (JStr a0) →
    run_stream (choice_step rm) st (piece_choice <$> ps)
    = Ok (advanced rm st (piece_message <$> ps) (piece_token <$> ps)
            (JList (JDict (<["arguments" := JStr (a0 +:+ joined (omap piece_fragment ps))]> call0)
                      :: rest0))).
Proof.
  induction ps as [|p ps IH]; intros Hwf st call0 a0 Hacc Ha0; simpl.
  - rewrite append_nil_r, insert_id by done. rewrite <- Hacc. by rewrite advanced_nil.
  - apply Forall_cons in Hwf as [(Hm & Ht & Hf) Hwf].
    rewrite (choice_step_message _ _ _ _ _ Hm Ht), Hacc.
    destruct (piece_fragment p) as [a|] eqn:Hp.
    + destruct Hf as (call & rest & Hcalls & Ha). rewrite Hcalls. simpl.
      rewrite (accumulate_later _ _ _ _ _ _ Ha0 Ha). simpl.
      rewrite (IH Hwf _ (<["arguments" := JStr (a0 +:+ a)]> call0) (a0 +:+ a));
        [ | done | by rewrite lookup_insert_eq ].
      simpl. by rewrite advanced_cons, insert_insert_eq, append_assoc.
    + rewrite (accumulate_none _ _ Hf). simpl.
      rewrite (IH Hwf _ call0 a0); [ | done | done ].
      simpl. by rewrite advanced_cons.
Qed.

(** From the first tool call on: the accumulator is the tool calls of the
    first message that has any, the arguments of its first call extended by
    every later fragment. *)
Lemma run_choices rm (before after : list Piece) p0 (call0 : gmap string json) rest0 a0 st :
  Forall well_formed (before ++ p0 :: after) →
  Forall (fun p => piece_fragment p = None) before →
  carries_fragment (piece_message p0) call0 rest0 a0 →
  tool_calls st = JNull →
  run_stream (choice_step rm) st (piece_choice <$> (before ++ p0 :: after))
  = Ok (advanced rm st (piece_message <$> (before ++ p0 :: after))
          (piece_token <$> (before ++ p0 :: after))
          (JList (JDict (<["arguments" :=
                             JStr (joined (a0 :: omap piece_fragment after))]> call0)
                    :: rest0))).
Proof.
  intros Hwf Hnone [Hcalls Ha0] Hst.
  apply Forall_app in Hwf as [Hbefore Hwf].
  apply Forall_cons in Hwf as [(Hm & Ht & _) Hafter].
  rewrite fmap_app, run_stream_app, (run_choices_without_calls _ _ Hbefore Hnone).
  remember (advanced rm st (piece_message <$> before) (piece_token <$> before)
              (tool_calls st)) as st1 eqn:Hst1.
  assert (tool_calls st1 = JNull) as Htc1 by (by subst st1).
  rewrite bind_Ok, fmap_cons, run_stream_cons.
  rewrite (choice_step_message _ _ _ _ _ Hm Ht), Htc1, Hcalls.
  cbn [from_option]. unfold id at 1.
  rewrite accumulate_first, !bind_Ok.
  remember (advanced rm st1 [piece_message p0] [piece_token p0]
              (JList (JDict call0 :: rest0))) as st2 eqn:Hst2.
  assert (tool_calls st2 = JList (JDict call0 :: rest0)) as Htc2 by (by subst st2).
  rewrite (run_choices_merging _ rest0 _ Hafter _ call0 a0 Htc2 Ha0).
  subst st2 st1. rewrite Hst.
  by rewrite advanced_cons, advanced_app, !fmap_app, !fmap_cons.
Qed.

Lemma run_items json_loads rm items css :
  Forall2 (fun item cs => item_choices json_loads item = Ok cs) items css →
  ∀ st, run_stream (item_step json_loads rm) st items
        = run_stream (choice_step rm) st (concat css).
Proof.
  induction 1 as [|item cs items css Hitem _ IH]; intros st; [ done | ].
  rewrite run_stream_cons.
  assert (item_step json_loads rm st item = run_stream (choice_step rm) st cs) as ->.
  { unfold item_step. by rewrite Hitem. }
  cbn [concat]. rewrite run_stream_app.
  destruct (run_stream (choice_step rm) st cs) as [st'| |]; [ | done | done ].
  rewrite !bind_Ok. apply IH.
Qed.

(** The message assembled at the end of the stream, for the role assistant. *)
Lemma assembled_assistant st :
  role st = JStr "assistant" →
  _convert_dict_to_message (assembled_dict st)
  = Ok (AIMessage (JStr (inner_completion st)) {["tool_calls" := tool_calls st]} None).
Proof.
  destruct st as [inner r tc e]. simpl. intros ->.
  destruct inner; vm_compute; reflexivity.
Qed.

(** The asynchronous streaming call, once its stream is open, in terms of
    the choices that the stream carries. *)
Lemma _agenerate_streaming json_loads acompletion_with_retry self messages stop rm kwargs
    kw response css st :
  streaming self = true →
  agenerate_keywords self messages stop kwargs = Ok kw →
  acompletion_with_retry self kw = Ok response →
  failure response = None →
  Forall2 (fun item cs => item_choices json_loads item = Ok cs) (delivered response) css →
  run_stream (choice_step rm) initial_stream_state (concat css) = Ok st →
  role st = JStr "assistant" →
  _agenerate json_loads acompletion_with_retry self messages stop rm kwargs
  = Ok ({| generations :=
             [generation_of (AIMessage (JStr (inner_completion st))
                               {["tool_calls" := tool_calls st]} None)];
           llm_output := None |},
        emitted st).
Proof.
  intros Hstreaming Hkw Hopen Hend Hitems Hrun Hrole.
  unfold _agenerate. rewrite Hkw, bind_Ok, Hopen, bind_Ok, Hstreaming.
  rewrite (run_items _ _ _ _ Hitems), Hrun, bind_Ok.
  unfold stream_end. rewrite Hend, bind_Ok.
  by rewrite (assembled_assistant _ Hrole), bind_Ok.
Qed.




Ltac piece_well_formed :=
  split; [ eexists; split; reflexivity | ];
  split; [ vm_compute; reflexivity | ];
  first [ vm_compute; reflexivity
        | eexists _, _; split; reflexivity ].



(** C1, as amended: in a streaming call of the asynchronous path, the tool
    calls of the first chunk that has any become the accumulator, and the
    arguments text of the first tool call of every later chunk that has tool
    calls is appended, in arrival order, to the arguments of the
    accumulator's first tool call, whatever the ids are; the assembled
    message holds that accumulator.  Fragments [{"a":1] then [,"b":2}]
    carried as the first tool call of successive chunks so assemble to
    [{"a":1,"b":2}]. *)
Theorem first_tool_call_collects_fragments json_loads acompletion_with_retry self
    messages stop rm kwargs kw response css (before after : list Piece) p0
    (call0 : gmap string json) rest0 a0 :
  streaming self = true →
  agenerate_keywords self messages stop kwargs = Ok kw →
  acompletion_with_retry self kw = Ok response →
  failure response = None →
  Forall2 (fun item cs => item_choices json_loads item = Ok cs) (delivered response) css →
  concat css = piece_choice <$> (before ++ p0 :: after) →
  Forall well_formed (before ++ p0 :: after) →
  Forall (fun p => piece_fragment p = None) before →
  carries_fragment (piece_message p0) call0 rest0 a0 →
  carried_role (JStr "assistant") (piece_message <$> (before ++ p0 :: after))
  = JStr "assistant" →
  _agenerate json_loads acompletion_with_retry self messages stop rm kwargs
  = Ok ({| generations :=
             [generation_of
                (AIMessage (JStr (joined (piece_token <$> (before ++ p0 :: after))))
                   {["tool_calls" :=
                       JList (JDict (<["arguments" :=
                                         JStr (joined (a0 :: omap piece_fragment after))]>
                                       call0)
                                :: rest0)]}
                   None)];
           llm_output := None |},
        tokens_given rm (piece_message <$> (before ++ p0 :: after))).
Proof.
  intros Hstreaming Hkw Hopen Hend Hitems Hchoices Hwf Hnone Hfirst Hrole.
  apply (_agenerate_streaming json_loads acompletion_with_retry self messages stop rm
           kwargs kw response css
           (advanced rm initial_stream_state (piece_message <$> (before ++ p0 :: after))
              (piece_token <$> (before ++ p0 :: after))
              (JList (JDict (<["arguments" :=
                                 JStr (joined (a0 :: omap piece_fragment after))]> call0)
                        :: rest0)))); try done.
  rewrite Hchoices. by apply run_choices.
Qed.

Lemma first_tool_call_collects_fragments_witness :
  calls_of (tool_calls_of (_agenerate (decode same_id_table) (yielding two_items)
                             a_client_streaming one_user_message None true ∅))
  = [("call_a", fragments_joined)].
Proof.
  erewrite (first_tool_call_collects_fragments (decode same_id_table) (yielding two_items)
              a_client_streaming one_user_message None true ∅ _ two_items
              [[piece_choice same_id_first]; [piece_choice same_id_second]]
              [] [same_id_second] same_id_first
              (<["arguments" := JStr fragment_1]> {["id" := JStr "call_a"]}) [] fragment_1);
    [ vm_compute; reflexivity | reflexivity | vm_compute; reflexivity | reflexivity
    | reflexivity | | reflexivity | | constructor | split; reflexivity
    | vm_compute; reflexivity ].
  - cbn [delivered two_items].
    repeat (constructor; [ vm_compute; reflexivity | ]). constructor.
  - cbn [app].
    repeat (constructor; [ piece_well_formed | ]). constructor.
Defined.

(** C1, as stated, fails: the fragments of two different tool-call ids are
    concatenated into the entry of the first id, and no entry is made for
    the second. *)
Lemma fragments_of_two_ids_are_merged :
  calls_of (tool_calls_of (_agenerate (decode two_ids_table) (yielding two_items)
                             a_client_streaming one_user_message None true ∅))
  = [("call_a", "{}{}")]
  ∧ merged_by_id [("call_a", "{}"); ("call_b", "{}")]
    = [("call_a", "{}"); ("call_b", "{}")]
  ∧ calls_of (tool_calls_of (_agenerate (decode two_ids_table) (yielding two_items)
                               a_client_streaming one_user_message None true ∅))
    ≠ merged_by_id [("call_a", "{}"); ("call_b", "{}")].
Proof.
  split; [ vm_compute; reflexivity | ].
  split; [ vm_compute; reflexivity | ].
  vm_compute. discriminate.
Qed.

(* ===================================================================== *)
(** * Properties of the token accountant *)
(* ===================================================================== *)

Lemma total_permutation l1 l2 : l1 ≡ₚ l2 → total l1 = total l2.
Proof. induction 1; simpl; lia. Qed.

Lemma total_app l1 l2 : total (l1 ++ l2) = total l1 + total l2.
Proof. induction l1 as [|x l1 IH]; simpl; lia. Qed.

(** The keys of a wire message are among [wire_keys]. *)
Lemma dom_copy_key_into key (src dst : gmap string json) (X : gset string) :
  key ∈ X → dom dst ⊆ X → dom (copy_key key src dst) ⊆ X.
Proof.
  intros Hkey Hdst. unfold copy_key.
  destruct (src !! key); [ rewrite dom_insert_L | ]; set_solver.
Qed.

Lemma dom_role_content r c : dom (role_content r c) = {["content"; "role"]}.
Proof. unfold role_content. by rewrite dom_insert_L, dom_singleton_L. Qed.

Lemma wire_message_keys m (d : gmap string json) :
  _convert_message_to_dict m = Ok d → dom d ⊆ list_to_set wire_keys.
Proof.
  unfold _convert_message_to_dict, wire_keys.
  destruct m as [c r ak|c ak|c ak r|c ak|c n ak|c i ak|c ak]; simpl; intros [= <-].
  all: repeat (apply dom_copy_key_into; [ set_solver | ]).
  all: rewrite ?dom_insert_L, dom_role_content; set_solver.
Qed.

Lemma items_NoDup (ks : list string) (d : gmap string json) :
  NoDup ks → NoDup (omap (fun key => (fun value => (key, value)) <$> d !! key) ks).
Proof.
  induction 1 as [|k ks Hk _ IH]; simpl; [ constructor | ].
  destruct (d !! k) as [v|] eqn:E; simpl; [ | done ].
  constructor; [ | done ].
  rewrite list_elem_of_omap. intros (k' & Hin & Heq).
  destruct (d !! k'); simpl in Heq; [ | done ].
  injection Heq as -> _. done.
Qed.

(** [message.items()] visits every entry of the wire message once. *)
Lemma items_permutation (d : gmap string json) :
  dom d ⊆ list_to_set wire_keys → items d ≡ₚ map_to_list d.
Proof.
  intros Hdom. apply NoDup_Permutation.
  - apply items_NoDup. unfold wire_keys. repeat (constructor; [ set_solver | ]). constructor.
  - apply NoDup_map_to_list.
  - intros [k v]. unfold items. rewrite list_elem_of_omap, elem_of_map_to_list. split.
    + intros (k' & _ & Heq). destruct (d !! k') eqn:E; simpl in Heq; [ | done ].
      by injection Heq as -> ->.
    + intros Hkv. exists k. split; [ | by rewrite Hkv ].
      apply (elem_of_list_to_set (C := gset string)), Hdom, elem_of_dom. eauto.
Qed.

Section CountFacts.
Context {Encoding : Type}.
Variable encode : Encoding -> string -> result (list Z).
Variable encoding : Encoding.
Variable per_message per_name : Z.

Lemma count_items_total kvs :
  (∀ kv, kv ∈ kvs → ∃ text toks, kv.2 = JStr text ∧ encode encoding text = Ok toks) →
  ∀ n, count_items Encoding encode encoding per_name kvs n
       = Ok (n + total (entry_cost encode encoding per_name <$> kvs)).
Proof.
  induction kvs as [|[k v] kvs IH]; intros Hok n.
  - simpl. f_equal. lia.
  - destruct (Hok (k, v)) as (text & toks & Hv & Henc); [ left | ].
    simpl in Hv. subst v. rewrite fmap_cons.
    cbn [count_items encode_value]. rewrite Henc, bind_Ok.
    rewrite IH by (intros kv Hkv; apply Hok; by right). f_equal.
    cbn [total foldr]. fold (total (entry_cost encode encoding per_name <$> kvs)).
    unfold entry_cost at 2, value_tokens. cbn [fst snd]. rewrite Henc.
    destruct (String.eqb k "name"); lia.
Qed.

Lemma name_adjustment (d : gmap string json) :
  total ((fun kv : string * json => if String.eqb kv.1 "name" then per_name else 0)
           <$> map_to_list d)
  = if decide (is_Some (d !! "name")) then per_name else 0.
Proof.
  induction d as [|k v d Hk IH] using map_ind.
  - rewrite map_to_list_empty. simpl. case_decide as H; [ | done ].
    destruct H as [? H]. by rewrite lookup_empty in H.
  - rewrite (total_permutation _ _ (fmap_Permutation _ _ _ (map_to_list_insert d k v Hk))).
    rewrite fmap_cons. cbn [total foldr fst].
    fold (total ((fun kv : string * json => if String.eqb kv.1 "name" then per_name else 0)
                   <$> map_to_list d)).
    rewrite IH. destruct (String.eqb_spec k "name") as [->|Hne].
    + rewrite lookup_insert_eq, Hk.
      rewrite (decide_True (P := is_Some (Some v))) by eauto.
      rewrite (decide_False (P := is_Some None)) by (intros [? ?]; discriminate).
      lia.
    + rewrite lookup_insert_ne by done. lia.
Qed.

Lemma entry_cost_total (d : gmap string json) :
  total (entry_cost encode encoding per_name <$> map_to_list d)
  = total ((fun kv => value_tokens encode encoding kv.2) <$> map_to_list d)
    + (if decide (is_Some (d !! "name")) then per_name else 0).
Proof.
  rewrite <- name_adjustment. unfold entry_cost.
  induction (map_to_list d) as [|kv l IH]; [ done | ].
  rewrite !fmap_cons. cbn [total foldr]. unfold total in IH. lia.
Qed.

Lemma count_messages_total (dicts : list (gmap string json)) :
  Forall (fun d => dom d ⊆ list_to_set wire_keys) dicts →
  Forall (encodable encode encoding) dicts →
  ∀ n, count_messages Encoding encode encoding per_message per_name dicts n
       = Ok (n + total (message_count encode encoding per_message per_name <$> dicts)).
Proof.
  induction dicts as [|d dicts IH]; intros Hdom Henc n.
  - simpl. f_equal. lia.
  - apply Forall_cons in Hdom as [Hd Hdom]. apply Forall_cons in Henc as [He Henc].
    rewrite fmap_cons. cbn [count_messages total foldr].
    fold (total (message_count encode encoding per_message per_name <$> dicts)).
    rewrite count_items_total.
    + rewrite bind_Ok, (IH Hdom Henc). f_equal.
      rewrite (total_permutation _ _ (fmap_Permutation _ _ _ (items_permutation d Hd))).
      rewrite entry_cost_total. unfold message_count. lia.
    + intros [k v] Hkv. apply (He k v).
      apply (elem_of_map_to_list d k v). by rewrite <- (items_permutation d Hd).
Qed.

End CountFacts.

Lemma convert_messages_keys messages dicts :
  convert_messages messages = Ok dicts →
  Forall (fun d : gmap string json => dom d ⊆ list_to_set wire_keys) dicts.
Proof.
  revert dicts. induction messages as [|m messages IH]; intros dicts; simpl.
  - intros [= <-]. constructor.
  - destruct (_convert_message_to_dict m) as [d| |] eqn:Hd; simpl; [ | done | done ].
    destruct (convert_messages messages) as [ds| |]; simpl; [ | done | done ].
    intros [= <-]. constructor; [ by eapply wire_message_keys | by apply IH ].
Qed.

(** C6, as amended: on a Python later than 3.7, when the model name resolved by
    [_get_encoding_model] starts with "chatglm", the count of a message list
    whose wire messages hold only texts that the encoding accepts is, for
    each message, the overhead 4 plus the tokens of every field value
    encoded on its own, minus 1 when there is a name field, plus 3 for the
    priming of the reply; for every other resolved model name the call
    raises [NotImplementedError] and counts nothing. *)
Theorem message_token_count tiktoken_installed (Encoding : Type) encoding_for_model
    get_encoding (encode : Encoding -> string -> result (list Z)) version_minor
    super_count self messages model encoding :
  7 < version_minor →
  _get_encoding_model tiktoken_installed Encoding encoding_for_model get_encoding self
  = Ok (model, encoding) →
  (Py.startswith model "chatglm" = true →
   ∀ dicts,
     convert_messages messages = Ok dicts →
     Forall (encodable encode encoding) dicts →
     get_num_tokens_from_messages tiktoken_installed Encoding encoding_for_model
       get_encoding encode version_minor super_count self messages
     = Ok (messages_count encode encoding 4 (-1) 3 dicts))
  ∧ (Py.startswith model "chatglm" = false →
     get_num_tokens_from_messages tiktoken_installed Encoding encoding_for_model
       get_encoding encode version_minor super_count self messages
     = Raise (NotImplementedError model)).
Proof.
  intros Hversion Hmodel. unfold get_num_tokens_from_messages.
  rewrite (proj2 (Z.leb_gt version_minor 7) Hversion), Hmodel, bind_Ok.
  split.
  - intros -> dicts Hdicts Henc. rewrite Hdicts, bind_Ok.
    rewrite (count_messages_total encode encoding 4 (-1) dicts
               (convert_messages_keys _ _ Hdicts) Henc), bind_Ok.
    unfold messages_count. f_equal.
  - by intros ->.
Qed.

Ltac encodable_entries :=
  intros key value Hentry;
  apply elem_of_map_to_list in Hentry;
  match type of Hentry with
  | _ ∈ map_to_list ?d =>
      let l := eval vm_compute in (map_to_list d) in
      change (map_to_list d) with l in Hentry
  end;
  repeat (apply elem_of_cons in Hentry as [[= -> ->]|Hentry];
          [ eexists _, _; split; reflexivity | ]);
  by apply elem_of_nil in Hentry.

Lemma message_token_count_witness :
  get_num_tokens_from_messages true unit toy_encoding_for_model (fun _ => ()) toy_encode
    11 no_super chatglm_self two_messages
  = Ok (messages_count toy_encode () 4 (-1) 3 two_dicts)
  ∧ messages_count toy_encode () 4 (-1) 3 two_dicts = 36
  ∧ get_num_tokens_from_messages true unit toy_encoding_for_model (fun _ => ()) toy_encode
      11 no_super sdk_self two_messages
    = Raise (NotImplementedError "cl100k_base").
Proof.
  split; [ | split; [ vm_compute; reflexivity | ] ].
  - apply (proj1 (message_token_count true unit toy_encoding_for_model (fun _ => ())
                    toy_encode 11 no_super chatglm_self two_messages "chatglm-std" ()
                    ltac:(lia) eq_refl) eq_refl two_dicts).
    + vm_compute. reflexivity.
    + repeat (constructor; [ encodable_entries | ]). constructor.
  - apply (proj2 (message_token_count true unit toy_encoding_for_model (fun _ => ())
                    toy_encode 11 no_super sdk_self two_messages "cl100k_base" ()
                    ltac:(lia) eq_refl) eq_refl).
Defined.

(** C6, as stated, fails: for a message list that holds an assistant
    message with a function call and tool calls, and a resolved model name
    that starts with "chatglm", the count is not the sum described: the
    field values [function_call] and [tool_calls] are not texts, and the
    call raises [TypeError] when it encodes them. *)
Lemma function_call_is_not_counted :
  convert_messages [assistant_calls_only]
  = Ok [<["tool_calls" := a_tool_calls]>
          (<["function_call" := a_function_call]>
             (role_content (JStr "assistant") (JStr "hi")))]
  ∧ get_num_tokens_from_messages true unit toy_encoding_for_model (fun _ => ()) toy_encode
      11 no_super chatglm_self [assistant_calls_only]
    = Raise TypeError
  ∧ ∀ n, get_num_tokens_from_messages true unit toy_encoding_for_model (fun _ => ())
           toy_encode 11 no_super chatglm_self [assistant_calls_only]
         ≠ Ok n.
Proof.
  split; [ vm_compute; reflexivity | ].
  assert (get_num_tokens_from_messages true unit toy_encoding_for_model (fun _ => ())
            toy_encode 11 no_super chatglm_self [assistant_calls_only]
          = Raise TypeError) as Hcount by (vm_compute; reflexivity).
  split; [ exact Hcount | ]. intros n. by rewrite Hcount.
Qed.

(* ===================================================================== *)
(** * Further properties of the retry engine *)
(* ===================================================================== *)

Section RetryBounds.
Context {A : Type}.
Variable fn : nat -> result A * list Request.

(** The loop ends within the attempts that are left, whatever the wrapped
    function does. *)
Lemma retrying_bounded k fuel :
  ∀ a log0,
    (Z.to_nat (Z.max k (Z.of_nat a)) - a < fuel)%nat →
    ∃ r log,
      retrying (Some k) fn fuel a log0 = Some (r, log)
      ∧ (attempts log0 < attempts log)%nat
      ∧ (attempts log ≤ attempts log0 + S (Z.to_nat (Z.max k (Z.of_nat a)) - a))%nat.
Proof.
  induction fuel as [|fuel IH]; intros a log0 Hfuel; [ lia | ].
  simpl. destruct (fn a) as [outcome reqs].
  assert (∀ x : result A, ∃ r log,
            Some (x, log_attempt reqs log0) = Some (r, log)
            ∧ (attempts log0 < attempts log)%nat
            ∧ (attempts log
               ≤ attempts log0 + S (Z.to_nat (Z.max k (Z.of_nat a)) - a))%nat) as Hstop.
  { intros x. eexists _, _. split; [ reflexivity | ]. simpl. lia. }
  destruct outcome as [v|e|]; [ apply Hstop | | apply Hstop ].
  destruct (negb (is_Exception e)); [ apply Hstop | ].
  simpl. destruct (k <=? Z.of_nat a) eqn:Hk; [ apply Hstop | ].
  apply Z.leb_gt in Hk.
  destruct (IH (S a) (log_sleep (wait_exponential 1 min_seconds max_seconds a)
                        (log_attempt reqs log0))) as (r & log & Hrun & Hlow & Hhigh).
  { lia. }
  exists r, log. split; [ exact Hrun | ]. simpl in Hlow, Hhigh. lia.
Qed.

(** Every attempt adds what the wrapped function posted at that attempt. *)
Lemma retrying_posted max_retries fuel :
  ∀ a log0 r log,
    retrying max_retries fn fuel a log0 = Some (r, log) →
    posted log
    = posted log0 ++ concat ((fun i => (fn i).2) <$> seq a (attempts log - attempts log0)).
Proof.
  induction fuel as [|fuel IH]; intros a log0 r log; simpl; [ done | ].
  destruct (fn a) as [outcome reqs] eqn:Hfn.
  assert (∀ x : result A, Some (x, log_attempt reqs log0) = Some (r, log) →
               posted log
               = posted log0
                 ++ concat ((fun i => (fn i).2) <$> seq a (attempts log - attempts log0)))
    as Hstop.
  { intros x [= _ <-]. simpl.
    replace (S (attempts log0) - attempts log0)%nat with 1%nat by lia.
    simpl. by rewrite Hfn, app_nil_r. }
  destruct outcome as [v|e|]; [ by apply Hstop | | by apply Hstop ].
  destruct (negb (is_Exception e)); [ by apply Hstop | ].
  destruct (stop_after_attempt max_retries a) as [[|]|e'|];
    [ by apply Hstop | | by apply Hstop | by apply Hstop ].
  intros Hrun. pose proof (retrying_log _ _ _ _ _ _ _ Hrun) as (j & Hatt & _).
  rewrite (IH _ _ _ _ Hrun). simpl in *.
  replace (attempts log - attempts log0)%nat with (S (attempts log - S (attempts log0))) by lia.
  simpl. by rewrite Hfn, <- app_assoc.
Qed.

(** When the attempts before the [j]-th fail with an [Exception] and the
    [j]-th succeeds, within the bound, the loop returns at the [j]-th. *)
Lemma retrying_until_success k (errors : nat -> exn) j v fuel :
  (∀ i, (i < j)%nat → (fn i).1 = Raise (errors i) ∧ is_Exception (errors i) = true) →
  (fn j).1 = Ok v →
  Z.of_nat j ≤ Z.max 1 k →
  ∀ a log0,
    (1 ≤ a ≤ j)%nat → (j - a < fuel)%nat →
    ∃ log,
      retrying (Some k) fn fuel a log0 = Some (Ok v, log)
      ∧ attempts log = (attempts log0 + S (j - a))%nat
      ∧ sleeps log
        = sleeps log0 ++ (wait_exponential 1 min_seconds max_seconds <$> seq a (j - a)).
Proof.
  intros Hfail Hok Hk.
  induction fuel as [|fuel IH]; intros a log0 Ha Hfuel; [ lia | ].
  simpl. destruct (decide (a = j)) as [->|Hne].
  - destruct (fn j) as [outcome reqs]. simpl in Hok. subst outcome.
    eexists. split; [ reflexivity | ]. simpl. rewrite Nat.sub_diag. simpl.
    split; [ lia | by rewrite app_nil_r ].
  - destruct (Hfail a) as [Hraise Hexc]; [ lia | ].
    destruct (fn a) as [outcome reqs]. simpl in Hraise. subst outcome.
    rewrite Hexc. simpl.
    rewrite (proj2 (Z.leb_gt k (Z.of_nat a))) by lia.
    destruct (IH (S a) (log_sleep (wait_exponential 1 min_seconds max_seconds a)
                          (log_attempt reqs log0))) as (log & Hrun & Hatt & Hsl);
      [ lia | lia | ].
    exists log. split; [ exact Hrun | ]. simpl in Hatt, Hsl.
    replace (j - a)%nat with (S (j - S a)) by lia.
    split; [ lia | ]. rewrite Hsl. simpl. by rewrite <- app_assoc.
Qed.

End RetryBounds.

Lemma posts_at_most_one transport self c kwargs i :
  (length (_completion_with_retry transport self c kwargs i).2 ≤ 1)%nat.
Proof. unfold _completion_with_retry. destruct (request_of self c kwargs); simpl; lia. Qed.

Lemma length_concat_at_most_one {X} (f : nat -> list X) l :
  (∀ i, (length (f i) ≤ 1)%nat) → (length (concat (f <$> l)) ≤ length l)%nat.
Proof.
  intros Hf. induction l as [|i l IH]; [ simpl; lia | ].
  rewrite fmap_cons. cbn [concat]. rewrite length_app. cbn [length].
  specialize (Hf i). lia.
Qed.

(** X1: once the namespace binds [retry_if_exception_type] (the module as
    it is written does not, and then raises [NameError] before any attempt),
    a call of [completion_with_retry] with [max_retries = k] always comes to
    an end, after at most [max(1, k)] attempts of the wrapped
    function, each of which posts at most one request. *)
Theorem completion_attempts_bounded transport self kwargs k fuel :
  max_retries self = Some k →
  (Z.to_nat (Z.max 1 k) ≤ fuel)%nat →
  ∃ r self' log,
    completion_with_retry patched transport self kwargs fuel = Some (r, self', log)
    ∧ (attempts log ≤ Z.to_nat (Z.max 1 k))%nat
    ∧ (length (posted log) ≤ attempts log)%nat.
Proof.
  intros Hk Hfuel. unfold completion_with_retry, _create_retry_decorator, retried_response, retry_call;
    cbn [patched retry_if_exception_type stop_after].
  destruct (client self) as [c|].
  - rewrite Hk.
    destruct (retrying_bounded (_completion_with_retry transport self (pop_accept c) kwargs)
                k fuel 1%nat empty_log) as (r & log & Hrun & Hlow & Hhigh); [ lia | ].
    rewrite Hrun. eexists _, _, _. split; [ reflexivity | ].
    simpl in Hlow, Hhigh. split; [ lia | ].
    rewrite (retrying_posted _ _ _ _ _ _ _ Hrun). simpl.
    etrans; [ apply length_concat_at_most_one; intros i; apply posts_at_most_one | ].
    rewrite length_seq. lia.
  - eexists _, _, _. split; [ reflexivity | ]. simpl. lia.
Qed.

Lemma completion_attempts_bounded_witness :
  ∃ r self' log,
    completion_with_retry patched (transport_recovering success_body) (raw_self (Some 5))
      some_keywords 5 = Some (r, self', log)
    ∧ (attempts log ≤ 5)%nat
    ∧ (length (posted log) ≤ attempts log)%nat.
Proof.
  apply (completion_attempts_bounded (transport_recovering success_body)
           (raw_self (Some 5)) some_keywords 5 5); [ reflexivity | vm_compute; lia ].
Defined.

(** X2: once the namespace binds [retry_if_exception_type] (the module as
    it is written does not, and then posts nothing), every attempt of a call
    posts the same request: the requests posted
    are as many copies of the one request built from the keywords as there
    were attempts, and none at all when the request cannot be built. *)
Theorem retries_resend_the_request transport self c kwargs fuel r self' log :
  client self = Some c →
  completion_with_retry patched transport self kwargs fuel = Some (r, self', log) →
  match request_of self (pop_accept c) kwargs with
  | Ok req => posted log = replicate (attempts log) req
  | _ => posted log = []
  end.
Proof.
  intros Hc. unfold completion_with_retry, _create_retry_decorator, retried_response, retry_call;
    cbn [patched retry_if_exception_type stop_after]. rewrite Hc.
  destruct (retrying _ _ _ _ _) as [[r0 log0]|] eqn:Hrun; [ | done ].
  intros [= _ _ <-].
  rewrite (retrying_posted _ _ _ _ _ _ _ Hrun). simpl. rewrite Nat.sub_0_r.
  unfold _completion_with_retry.
  destruct (request_of self (pop_accept c) kwargs) as [req|e|]; simpl.
  - by rewrite concat_singletons, length_seq.
  - induction (seq 1 (attempts log0)); simpl; done.
  - induction (seq 1 (attempts log0)); simpl; done.
Qed.

Lemma retries_resend_the_request_witness :
  ∃ r self' log,
    completion_with_retry patched (transport_recovering success_body) (raw_self (Some 5))
      some_keywords 5 = Some (r, self', log)
    ∧ posted log = [hello_request; hello_request; hello_request].
Proof.
  pose proof (retries_resend_the_request (transport_recovering success_body)
                (raw_self (Some 5)) {| headers := built_headers |} some_keywords 5)
    as Hsame.
  destruct (completion_with_retry _ _ _ _ _) as [[[r self'] log]|] eqn:Hrun.
  - exists r, self', log. split; [ reflexivity | ].
    specialize (Hsame r self' log eq_refl eq_refl).
    vm_compute in Hrun. injection Hrun as _ _ <-. exact Hsame.
  - vm_compute in Hrun. discriminate.
Defined.

(** X3: once the namespace binds [retry_if_exception_type] (the module as
    it is written does not, and then makes no attempt), when the first
    [j - 1] requests of a call fail with an [Exception]
    and the [j]-th is answered, [j] being within the bound, the call makes
    exactly [j] attempts, sleeps before each attempt after the first, and
    goes on with the response of the [j]-th request. *)
Theorem success_after_failures transport self c kwargs k req (errors : nat -> exn) j rsp
    fuel :
  client self = Some c →
  max_retries self = Some k →
  request_of self (pop_accept c) kwargs = Ok req →
  (∀ i, (i < j)%nat → transport i req = Raise (errors i) ∧ is_Exception (errors i) = true) →
  transport j req = Ok rsp →
  (1 ≤ j)%nat → Z.of_nat j ≤ Z.max 1 k → (j ≤ fuel)%nat →
  ∃ log,
    completion_with_retry patched transport self kwargs fuel
    = Some (classify_response rsp, set_client (Some (pop_accept c)) self, log)
    ∧ attempts log = j
    ∧ posted log = replicate j req
    ∧ sleeps log = (fun i => backoff_before min_seconds max_seconds 2 (S i)) <$> seq 1 (j - 1).
Proof.
  intros Hc Hk Hreq Hfail Hok Hj Hbound Hfuel.
  pose proof (retries_resend_the_request transport self c kwargs fuel) as Hsame.
  unfold completion_with_retry, _create_retry_decorator, retried_response, retry_call in *;
    cbn [patched retry_if_exception_type stop_after] in *. rewrite Hc, Hk in *.
  destruct (retrying_until_success
              (_completion_with_retry transport self (pop_accept c) kwargs)
              k errors j rsp fuel) with (a := 1%nat) (log0 := empty_log)
    as (log & Hrun & Hatt & Hsl).
  - intros i Hi. unfold _completion_with_retry. rewrite Hreq. simpl. by apply Hfail.
  - unfold _completion_with_retry. by rewrite Hreq.
  - exact Hbound.
  - lia.
  - lia.
  - rewrite Hrun in *. exists log. split; [ done | ].
    simpl in Hatt, Hsl. assert (attempts log = j) as Hattempts by lia.
    split; [ exact Hattempts | ].
    specialize (Hsame _ _ _ eq_refl eq_refl). rewrite Hreq, Hattempts in Hsame.
    split; [ exact Hsame | ].
    rewrite Hsl. apply list_fmap_ext. intros n i Hi.
    apply lookup_seq in Hi as [-> _]. apply wait_exponential_backoff. lia.
Qed.

Lemma success_after_failures_witness :
  ∃ log,
    completion_with_retry patched (transport_recovering success_body) (raw_self (Some 5))
      some_keywords 5
    = Some (classify_response success_body,
            set_client (Some (pop_accept {| headers := built_headers |})) (raw_self (Some 5)),
            log)
    ∧ attempts log = 3%nat
    ∧ posted log = replicate 3 hello_request
    ∧ sleeps log = [1; 2].
Proof.
  destruct (success_after_failures (transport_recovering success_body) (raw_self (Some 5))
              {| headers := built_headers |} some_keywords 5 hello_request
              (fun _ => RemoteError "connection refused") 3 success_body 5)
    as (log & Hrun & Hatt & Hposted & Hsleeps).
  - reflexivity.
  - reflexivity.
  - vm_compute. reflexivity.
  - intros i Hi. unfold transport_recovering.
    by rewrite (proj2 (Nat.ltb_lt i 3) Hi).
  - reflexivity.
  - lia.
  - vm_compute. discriminate.
  - lia.
  - exists log. split; [ exact Hrun | ]. split; [ exact Hatt | ].
    split; [ exact Hposted | ]. rewrite Hsleeps. vm_compute. reflexivity.
Defined.

(** X4: once the namespace binds [retry_if_exception_type] (the module as
    it is written does not, and then makes no attempt), an exception of the
    transport that is not an [Exception] (a keyboard interrupt) is never
    retried: it reaches the caller after one
    attempt and no sleep, whatever [max_retries] is. *)
Theorem base_exception_not_retried transport self c kwargs req e fuel :
  client self = Some c →
  request_of self (pop_accept c) kwargs = Ok req →
  transport 1%nat req = Raise e →
  is_Exception e = false →
  (1 ≤ fuel)%nat →
  completion_with_retry patched transport self kwargs fuel
  = Some (Raise e, set_client (Some (pop_accept c)) self,
          {| attempts := 1; posted := [req]; sleeps := [] |}).
Proof.
  intros Hc Hreq Hraise He Hfuel.
  unfold completion_with_retry, _create_retry_decorator, retried_response, retry_call;
    cbn [patched retry_if_exception_type stop_after]. rewrite Hc.
  destruct fuel as [|fuel]; [ lia | ]. simpl.
  unfold _completion_with_retry at 1. rewrite Hreq, Hraise, He. reflexivity.
Qed.

Lemma base_exception_not_retried_witness :
  completion_with_retry patched transport_interrupted (raw_self (Some 5)) some_keywords 5
  = Some (Raise KeyboardInterrupt,
          set_client (Some (pop_accept {| headers := built_headers |})) (raw_self (Some 5)),
          {| attempts := 1; posted := [hello_request]; sleeps := [] |}).
Proof.
  apply (base_exception_not_retried transport_interrupted (raw_self (Some 5))
           {| headers := built_headers |} some_keywords hello_request KeyboardInterrupt 5).
  - reflexivity.
  - vm_compute. reflexivity.
  - reflexivity.
  - reflexivity.
  - lia.
Defined.

(** X5: once the namespace binds [retry_if_exception_type] (the module as
    it is written does not, and then makes no attempt), with [max_retries]
    left at [None], the first failure of the
    transport cannot be compared with the bound: the caller receives a
    [TypeError] after one attempt, not the exception of the transport. *)
Theorem no_bound_raises_type_error transport self c kwargs req e fuel :
  client self = Some c →
  max_retries self = None →
  request_of self (pop_accept c) kwargs = Ok req →
  transport 1%nat req = Raise e →
  is_Exception e = true →
  (1 ≤ fuel)%nat →
  completion_with_retry patched transport self kwargs fuel
  = Some (Raise TypeError, set_client (Some (pop_accept c)) self,
          {| attempts := 1; posted := [req]; sleeps := [] |}).
Proof.
  intros Hc Hk Hreq Hraise He Hfuel.
  unfold completion_with_retry, _create_retry_decorator, retried_response, retry_call;
    cbn [patched retry_if_exception_type stop_after]. rewrite Hc, Hk.
  destruct fuel as [|fuel]; [ lia | ]. simpl.
  unfold _completion_with_retry at 1. rewrite Hreq, Hraise, He. reflexivity.
Qed.

Lemma no_bound_raises_type_error_witness :
  completion_with_retry patched transport_down (raw_self None) some_keywords 1
  = Some (Raise TypeError,
          set_client (Some (pop_accept {| headers := built_headers |})) (raw_self None),
          {| attempts := 1; posted := [hello_request]; sleeps := [] |}).
Proof.
  apply (no_bound_raises_type_error transport_down (raw_self None)
           {| headers := built_headers |} some_keywords hello_request
           (RemoteError "connection refused") 1).
  - reflexivity.
  - reflexivity.
  - vm_compute. reflexivity.
  - reflexivity.
  - reflexivity.
  - lia.
Defined.

(* ===================================================================== *)
(** * Further properties of the wire converter *)
(* ===================================================================== *)

Lemma or_idempotent c : Py.or (Py.or c (JStr "")) (JStr "") = Py.or c (JStr "").
Proof. unfold Py.or. destruct (Py.truthy c) eqn:H; [ by rewrite H | reflexivity ]. Qed.

Lemma roundtrip_carried m : carried m → roundtrip m = Ok m.
Proof.
  destruct m as [c r ak|c ak|c ak r|c ak|c n ak|c i ak|c ak]; simpl.
  - intros [-> Hr]. by apply roundtrip_other_role.
  - by intros ->.
  - intros (-> & Hc & Hdom & Hfc). by apply roundtrip_assistant.
  - by intros ->.
  - by intros ->.
  - by intros ->.
  - done.
Qed.

(** What comes from the wire holds nothing but what its kind carries. *)
Lemma from_wire_carried d m : _convert_dict_to_message d = Ok m → carried m.
Proof.
  unfold _convert_dict_to_message, Py.item.
  destruct (d !! "role") as [r|]; [ | done ]. rewrite bind_Ok.
  destruct (d !! "content") as [c|];
    [ | by repeat (destruct (Py.eq_str r _)) ].
  destruct (Py.eq_str r "user") eqn:Huser; [ by intros [= <-] | ].
  destruct (Py.eq_str r "assistant") eqn:Hassistant.
  { rewrite bind_Ok.
    destruct (d !! "function_call") as [fc|] eqn:Hfc.
    - destruct (Py.dict fc) as [fd| |]; [ | done | done ]. rewrite !bind_Ok.
      intros [= <-]. simpl. split; [ done | ]. split; [ apply or_idempotent | ]. split.
      + apply dom_copy_key_into; [ set_solver | ]. rewrite dom_singleton_L. set_solver.
      + intros fc'. rewrite lookup_copy_key. case_decide; [ done | ].
        rewrite lookup_singleton_eq. intros [= <-]. by eexists.
    - rewrite !bind_Ok. intros [= <-]. simpl.
      split; [ done | ]. split; [ apply or_idempotent | ]. split.
      + apply dom_copy_key_into; [ set_solver | ]. rewrite dom_empty_L. set_solver.
      + intros fc'. rewrite lookup_copy_key. case_decide; [ done | ].
        by rewrite lookup_empty. }
  destruct (Py.eq_str r "system") eqn:Hsystem; [ by intros [= <-] | ].
  destruct (Py.eq_str r "function") eqn:Hfunction.
  { rewrite bind_Ok. destruct (d !! "name"); [ by intros [= <-] | done ]. }
  destruct (Py.eq_str r "tool") eqn:Htool.
  { rewrite bind_Ok. destruct (d !! "tool_call_id"); [ by intros [= <-] | done ]. }
  intros [= <-]. simpl. split; [ done | ].
  unfold known_role. by rewrite Huser, Hassistant, Hsystem, Hfunction, Htool.
Qed.

(** X6: a message that [_convert_dict_to_message] has produced survives the
    round trip: converting it to the wire shape and back gives the same
    message again, whatever further keys the wire dict had. *)
Theorem wire_messages_survive_round_trip d m :
  _convert_dict_to_message d = Ok m → roundtrip m = Ok m.
Proof. intros Hm. by apply roundtrip_carried, (from_wire_carried d). Qed.

Lemma wire_messages_survive_round_trip_witness :
  _convert_dict_to_message wire_with_extras = Ok (HumanMessage (JStr "hi") ∅)
  ∧ roundtrip (HumanMessage (JStr "hi") ∅) = Ok (HumanMessage (JStr "hi") ∅).
Proof.
  assert (_convert_dict_to_message wire_with_extras = Ok (HumanMessage (JStr "hi") ∅))
    as H by (vm_compute; reflexivity).
  split; [ exact H | exact (wire_messages_survive_round_trip _ _ H) ].
Defined.

(** X7: on the wire, the [name] of a message is the [name] of its
    additional keyword arguments when there is one, which also replaces the
    name of a function message; without one, only a function message has a
    [name], its own. *)
Theorem name_on_the_wire m d :
  _convert_message_to_dict m = Ok d →
  d !! "name" = match additional_kwargs m !! "name" with
                | Some n => Some n
                | None => own_name m
                end.
Proof.
  unfold _convert_message_to_dict.
  destruct m as [c r ak|c ak|c ak r|c ak|c n ak|c i ak|c ak]; simpl; intros [= <-].
  all: rewrite !lookup_copy_key.
  all: repeat (case_decide; try done).
  all: destruct (ak !! "name") as [x|]; simpl; try done.
  all: rewrite ?lookup_insert_eq, ?lookup_role_content; try done.
  all: rewrite lookup_insert_ne by done; by rewrite lookup_role_content.
Qed.

Lemma name_on_the_wire_witness :
  ∃ d, _convert_message_to_dict a_function_message = Ok d
       ∧ d !! "name" = Some (JStr "override").
Proof.
  eexists. split; [ reflexivity | ].
  exact (name_on_the_wire a_function_message _ eq_refl).
Defined.

Lemma dict_of_pairs_no_key_error l key :
  ∀ acc, Py.dict_of_pairs l acc ≠ Raise (KeyError key).
Proof.
  induction l as [|x l IH]; intros acc; cbn [Py.dict_of_pairs]; [ done | ].
  destruct (Py.pair_of x) as [p|e|] eqn:Hp; [ rewrite bind_Ok; apply IH | | done ].
  intros [= ->]. revert Hp. unfold Py.pair_of.
  repeat (match goal with
          | |- context [match ?v with _ => _ end] => destruct v
          end; try done).
Qed.

Lemma dict_no_key_error v key : Py.dict v ≠ Raise (KeyError key).
Proof.
  destruct v as [| | | |s|l|d]; try done.
  - by destruct s.
  - apply dict_of_pairs_no_key_error.
Qed.

Lemma from_wire_first_missing d :
  match first_missing d with
  | Some key => _convert_dict_to_message d = Raise (KeyError key)
  | None => ∀ key, _convert_dict_to_message d ≠ Raise (KeyError key)
  end.
Proof.
  unfold first_missing, required_keys, _convert_dict_to_message, Py.item.
  destruct (d !! "role") as [r|] eqn:Hrole; simpl.
  2: { rewrite Hrole. rewrite bool_decide_eq_false_2 by (intros [? ?]; discriminate).
       reflexivity. }
  rewrite Hrole. rewrite bool_decide_eq_true_2 by eauto. simpl.
  destruct (d !! "content") as [c|] eqn:Hcontent.
  2: { rewrite bool_decide_eq_false_2 by (intros [? ?]; discriminate). simpl.
       by repeat (destruct (Py.eq_str r _)). }
  rewrite bool_decide_eq_true_2 by eauto. simpl.
  destruct (Py.eq_str r "user") eqn:Huser.
  { apply eq_str_true in Huser as ->. simpl. done. }
  destruct (Py.eq_str r "assistant") eqn:Hassistant.
  { apply eq_str_true in Hassistant as ->. simpl. intros key.
    destruct (d !! "function_call") as [fc|]; [ | done ].
    pose proof (dict_no_key_error fc key) as Hdict.
    destruct (Py.dict fc); [ done | | done ].
    simpl. congruence. }
  destruct (Py.eq_str r "system") eqn:Hsystem.
  { apply eq_str_true in Hsystem as ->. simpl. done. }
  destruct (Py.eq_str r "function") eqn:Hfunction.
  { simpl. destruct (d !! "name") as [n|] eqn:Hname.
    - rewrite bool_decide_eq_true_2 by eauto. simpl. done.
    - rewrite bool_decide_eq_false_2 by (intros [? ?]; discriminate). reflexivity. }
  destruct (Py.eq_str r "tool") eqn:Htool.
  { simpl. destruct (d !! "tool_call_id") as [n|] eqn:Hid.
    - rewrite bool_decide_eq_true_2 by eauto. simpl. done.
    - rewrite bool_decide_eq_false_2 by (intros [? ?]; discriminate). reflexivity. }
  simpl. done.
Qed.

(** X9: [_convert_dict_to_message] subscripts [role], then [content], then
    [name] for the role function and [tool_call_id] for the role tool, before
    it builds a message: it raises [KeyError(key)] exactly when [key] is the
    first of these keys that the dict lacks. *)
Theorem from_wire_key_errors d key :
  _convert_dict_to_message d = Raise (KeyError key) ↔ first_missing d = Some key.
Proof.
  pose proof (from_wire_first_missing d) as Hd.
  destruct (first_missing d) as [key'|].
  - rewrite Hd. split; congruence.
  - split; [ intros Hraise; by destruct (Hd key) | done ].
Qed.

Lemma from_wire_key_errors_witness :
  _convert_dict_to_message wire_function_without_name = Raise (KeyError "name").
Proof.
  apply (proj2 (from_wire_key_errors wire_function_without_name "name")).
  vm_compute. reflexivity.
Defined.

(* ===================================================================== *)
(** * Further properties of the request and of the raw-HTTP path *)
(* ===================================================================== *)

Lemma lookup_merge (a b : gmap string json) key :
  Py.merge a b !! key = match b !! key with Some v => Some v | None => a !! key end.
Proof.
  unfold Py.merge. rewrite lookup_union. destruct (b !! key), (a !! key); reflexivity.
Qed.

(** X10: for a qwen model the parameters of the request are the keywords
    of the call, except that [enable_search] is sent only when its value is
    true in the sense of Python, and that [incremental_output] is set to
    true for a streaming call that does not give it; a value that the caller
    gives for [incremental_output] is never replaced. *)
Theorem qwen_parameters model messages kwargs :
  Py.startswith model "qwen" = true →
  ∃ input params,
    _build_input_parameters model messages kwargs = Ok (input, params)
    ∧ input = match messages with JNull => ∅ | _ => {["messages" := messages]} end
    ∧ params !! "enable_search"
      = (if Py.truthy (default (JBool false) (kwargs !! "enable_search"))
         then kwargs !! "enable_search" else None)
    ∧ params !! "incremental_output"
      = match kwargs !! "incremental_output" with
        | Some v => Some v
        | None => if Py.truthy (default JNull (kwargs !! "stream"))
                  then Some (JBool true) else None
        end
    ∧ (∀ key, key ≠ "enable_search" → key ≠ "incremental_output" →
         params !! key = kwargs !! key).
Proof.
  intros Hqwen. unfold _build_input_parameters, pop. rewrite Hqwen.
  rewrite !get_default.
  set (rest := delete "enable_search" kwargs).
  assert (∀ key, key ≠ "enable_search" → rest !! key = kwargs !! key) as Hrest
    by (intros key Hkey; subst rest; by rewrite lookup_delete_ne).
  assert (rest !! "enable_search" = None) as Hgone
    by (subst rest; apply lookup_delete_eq).
  set (found := Py.truthy (default (JBool false) (kwargs !! "enable_search"))).
  assert (found = true → ∃ v, kwargs !! "enable_search" = Some v) as Hfound.
  { subst found. destruct (kwargs !! "enable_search"); [ eauto | done ]. }
  destruct found eqn:Hf; rewrite bind_Ok; rewrite get_default;
    rewrite (Hrest "incremental_output"), (Hrest "stream") by done;
    eexists _, _; (split; [ reflexivity | ]); (split; [ reflexivity | ]).
  all: destruct (kwargs !! "incremental_output") as [inc|] eqn:Hinc;
    rewrite ?bool_decide_eq_true_2 by eauto;
    rewrite ?(bool_decide_eq_false_2 (is_Some None)) by (intros [? ?]; discriminate);
    cbn [negb andb].
  all: try destruct (Py.truthy (default JNull (kwargs !! "stream"))) eqn:Hstream.
  all: repeat split.
  all: try (intros key Hk1 Hk2).
  all: rewrite lookup_merge, ?Hgone, ?Hrest by done.
  all: rewrite ?Hinc.
  all: try (destruct (Hfound eq_refl) as [v Hv]; rewrite ?Hv).
  all: rewrite ?lookup_insert_eq, ?lookup_insert_ne, ?lookup_singleton_eq,
         ?lookup_singleton_ne, ?lookup_empty by done.
  all: try done.
  all: by destruct (kwargs !! key).
Qed.

Lemma qwen_parameters_witness :
  ∃ input params,
    _build_input_parameters "qwen-turbo" JNull streaming_keywords = Ok (input, params)
    ∧ input = ∅
    ∧ params !! "enable_search" = None
    ∧ params !! "incremental_output" = Some (JBool true)
    ∧ params !! "top_p" = Some (JFloat 5 (-1)).
Proof.
  destruct (qwen_parameters "qwen-turbo" JNull streaming_keywords eq_refl)
    as (input & params & Hbuild & Hinput & Hsearch & Hinc & Hrest).
  exists input, params. split; [ exact Hbuild | ]. split; [ exact Hinput | ].
  split; [ exact Hsearch | ]. split; [ exact Hinc | ].
  rewrite Hrest by done. reflexivity.
Defined.

Lemma bailian_is_not_qwen model :
  Py.startswith model "bailian" = true → Py.startswith model "qwen" = false.
Proof.
  unfold Py.startswith. destruct model as [|a model]; [ done | ].
  change (String.prefix "bailian" (String a model))
    with (if Ascii.ascii_dec (Ascii.ascii_of_nat 98) a
          then String.prefix "ailian" model else false).
  change (String.prefix "qwen" (String a model))
    with (if Ascii.ascii_dec (Ascii.ascii_of_nat 113) a
          then String.prefix "wen" model else false).
  destruct (Ascii.ascii_dec (Ascii.ascii_of_nat 98) a) as [<-|_]; [ | done ].
  intros _. reflexivity.
Qed.

(** X11: once the namespace binds [retry_if_exception_type] (the module as
    it is written does not, and then makes no attempt), for a bailian model
    called without [customized_model_id], the
    request is never built: the [ValueError] is raised inside the retried
    function, so the call makes all its [max(1, k)] attempts, sleeping in
    between, posts nothing, and then raises the [ValueError]. *)
Theorem bailian_without_id_is_retried transport self c kwargs k fuel :
  client self = Some c →
  max_retries self = Some k →
  Py.startswith (model_name self) "bailian" = true →
  kwargs !! "model" = None → kwargs !! "cls" = None →
  kwargs !! "customized_model_id" = None →
  (Z.to_nat (Z.max 1 k) ≤ fuel)%nat →
  ∃ log,
    completion_with_retry patched transport self kwargs fuel
    = Some (Raise (ValueError ("customized_model_id is required for " +:+ model_name self)),
            set_client (Some (pop_accept c)) self, log)
    ∧ attempts log = Z.to_nat (Z.max 1 k)
    ∧ posted log = []
    ∧ length (sleeps log) = (Z.to_nat (Z.max 1 k) - 1)%nat.
Proof.
  intros Hc Hk Hbailian Hmodel Hcls Hid Hfuel.
  assert (request_of self (pop_accept c) kwargs
          = Raise (ValueError ("customized_model_id is required for " +:+ model_name self)))
    as Hreq.
  { unfold request_of, pop.
    destruct (decide ("messages" = "model")) as [|_]; [ done | ].
    rewrite !lookup_delete_ne, Hmodel, Hcls by done.
    rewrite !(bool_decide_eq_false_2 (is_Some None)) by (intros [? ?]; discriminate).
    cbn [orb]. unfold _build_input_parameters, pop.
    rewrite (bailian_is_not_qwen _ Hbailian), Hbailian.
    rewrite get_default, lookup_delete_ne, Hid by done. reflexivity. }
  unfold completion_with_retry, _create_retry_decorator, retried_response, retry_call;
    cbn [patched retry_if_exception_type stop_after]. rewrite Hc, Hk.
  set (e := ValueError ("customized_model_id is required for " +:+ model_name self)) in *.
  destruct (retrying_all_fail
              (_completion_with_retry transport self (pop_accept c) kwargs)
              (fun _ => e) (fun _ => [])) with (k := k) (fuel := fuel) (a := 1%nat)
              (log0 := empty_log) as (log & Hrun & Hatt & Hposted).
  - intros i. unfold _completion_with_retry. by rewrite Hreq.
  - done.
  - lia.
  - replace (Z.to_nat (Z.max k (Z.of_nat 1))) with (Z.to_nat (Z.max 1 k)) in * by lia.
    exists log. rewrite Hrun. split; [ done | ].
    simpl in Hatt, Hposted.
    pose proof (retrying_log _ _ _ _ _ _ _ Hrun) as (j & Hj & Hsl). simpl in Hj, Hsl.
    split; [ lia | ]. split.
    + rewrite Hposted. clear. induction (seq 2 _) as [|x l IH]; simpl; done.
    + rewrite Hsl, length_fmap, length_seq. lia.
Qed.

Lemma bailian_without_id_is_retried_witness :
  ∃ log,
    completion_with_retry patched transport_down bailian_self some_keywords 3
    = Some (Raise (ValueError "customized_model_id is required for bailian-v1"),
            set_client (Some (pop_accept {| headers := built_headers |})) bailian_self, log)
    ∧ attempts log = 3%nat
    ∧ posted log = []
    ∧ length (sleeps log) = 2%nat.
Proof.
  apply (bailian_without_id_is_retried transport_down bailian_self
           {| headers := built_headers |} some_keywords 3 3);
    reflexivity.
Defined.

(** X12: a [stop] given to the call when the parameters of the client
    already hold one (through [model_kwargs]) is a [ValueError], raised
    before any message is converted; otherwise the [stop] of the call is
    added to the parameters. *)
Theorem stop_given_twice self messages stop :
  (is_Some (model_kwargs self !! "stop") →
   _create_message_dicts self messages (Some stop)
   = Raise (ValueError "`stop` found in both the input and default params."))
  ∧ (model_kwargs self !! "stop" = None →
     ∀ message_dicts params,
       _create_message_dicts self messages (Some stop) = Ok (message_dicts, params) →
       params !! "stop" = Some stop
       ∧ ∀ key, key ≠ "stop" → params !! key = _default_params self !! key).
Proof.
  unfold _create_message_dicts, _client_params.
  assert (_default_params self !! "stop" = model_kwargs self !! "stop") as Hstop.
  { unfold _default_params. rewrite lookup_merge.
    destruct (model_kwargs self !! "stop"); [ done | ].
    by repeat (rewrite lookup_insert_ne by done). }
  split.
  - intros Hgiven. rewrite Hstop. by rewrite bool_decide_eq_true_2.
  - intros Hnone message_dicts params. rewrite Hstop, Hnone.
    rewrite bool_decide_eq_false_2 by (intros [? ?]; discriminate). rewrite bind_Ok.
    destruct (convert_messages messages); [ | done | done ]. rewrite bind_Ok.
    intros [= _ <-]. split; [ apply lookup_insert_eq | ].
    intros key Hkey. by rewrite lookup_insert_ne.
Qed.

Lemma stop_given_twice_witness :
  _create_message_dicts self_with_stop [OtherMessage (JStr "?") ∅] (Some (JList [JStr "."]))
  = Raise (ValueError "`stop` found in both the input and default params.").
Proof.
  apply (proj1 (stop_given_twice self_with_stop [OtherMessage (JStr "?") ∅]
                  (JList [JStr "."]))).
  vm_compute. eauto.
Defined.

Lemma default_params_result_format self : is_Some (_default_params self !! "result_format").
Proof.
  unfold _default_params. rewrite lookup_merge.
  destruct (model_kwargs self !! "result_format"); [ eauto | ].
  rewrite lookup_insert_ne, lookup_insert_eq by done. eauto.
Qed.

Lemma sdk_keywords_clash self messages params stream :
  is_Some (params !! "result_format") →
  sdk_keywords self messages params stream = Raise TypeError.
Proof.
  intros [v Hv]. unfold sdk_keywords, call_keywords.
  assert (is_Some (sdk_parameters self params !! "result_format")) as Hclash.
  { unfold sdk_parameters. rewrite lookup_union.
    rewrite (lookup_copy_key "response_format"). case_decide; [ done | ].
    rewrite (lookup_copy_key "result_format"). case_decide; [ | done ].
    rewrite Hv. simpl. destruct (model_kwargs self !! "result_format"); simpl; eauto. }
  cbn [existsb app fst]. rewrite (bool_decide_eq_true_2 _ Hclash).
  by rewrite !orb_true_r.
Qed.

Lemma sdk_call_keyword_clash generation_call generation_stream self messages stop
    run_manager kwargs message_dicts params :
  _create_message_dicts self messages stop = Ok (message_dicts, params) →
  _generate_with_sdk generation_call generation_stream self message_dicts
    (Py.merge params kwargs) run_manager
  = Raise TypeError.
Proof.
  intros Hdicts.
  assert (is_Some (Py.merge params kwargs !! "result_format")) as Hformat.
  { rewrite lookup_merge. destruct (kwargs !! "result_format"); [ eauto | ].
    revert Hdicts. unfold _create_message_dicts, _client_params.
    destruct stop as [s|].
    - destruct (bool_decide _); [ done | ]. rewrite bind_Ok.
      destruct (convert_messages messages); [ | done | done ]. rewrite bind_Ok.
      intros [= _ <-]. rewrite lookup_insert_ne by done.
      apply default_params_result_format.
    - rewrite bind_Ok. destruct (convert_messages messages); [ | done | done ].
      rewrite bind_Ok. intros [= _ <-]. apply default_params_result_format. }
  unfold _generate_with_sdk.
  rewrite !(sdk_keywords_clash _ _ _ _ Hformat). by destruct (_ && _).
Qed.

(** X13: in SDK mode, which is the default, [_generate] never reaches the
    SDK: the parameters of the client always hold [result_format], which
    [_generate_with_sdk] passes on beside the [result_format='message'] that
    it gives itself, so that the call of [Generation.call] is a [TypeError],
    for a streaming and for a plain call alike. *)
Theorem sdk_generate_is_a_type_error globals transport generation_call generation_stream
    self messages stop run_manager kwargs fuel message_dicts params :
  use_dashscope_sdk self = true →
  _create_message_dicts self messages stop = Ok (message_dicts, params) →
  _generate globals transport generation_call generation_stream self messages stop
    run_manager kwargs fuel
  = Some (Raise TypeError, no_effects self).
Proof.
  intros Hsdk Hdicts. unfold _generate. rewrite Hdicts, Hsdk.
  by rewrite (sdk_call_keyword_clash _ _ _ _ _ _ _ _ _ Hdicts).
Qed.

Lemma sdk_generate_is_a_type_error_witness :
  _generate as_written transport_down sdk_answering hello_sdk_stream sdk_self
    one_user_message None false ∅ 1
  = Some (Raise TypeError, no_effects sdk_self).
Proof.
  apply (sdk_generate_is_a_type_error as_written transport_down sdk_answering
           hello_sdk_stream
           sdk_self one_user_message None false ∅ 1 hello_dicts (_default_params sdk_self)).
  - reflexivity.
  - vm_compute. reflexivity.
Defined.

(** X14: in a streaming asynchronous call, an item that the stream marks as
    an error ends the call with a [ValueError] that carries the text of the
    item, provided that the text is JSON: the text is decoded before the mark
    is looked at, so that an error text that is not JSON raises the error of
    the decoder instead.  The items after it are not read, and a failure of
    the transport behind them is not reached. *)
Theorem error_item_ends_the_stream json_loads acompletion_with_retry self messages stop rm
    kwargs kw s before text after st :
  streaming self = true →
  agenerate_keywords self messages stop kwargs = Ok kw →
  acompletion_with_retry self kw = Ok s →
  delivered s = before ++ (true, text) :: after →
  run_stream (item_step json_loads rm) initial_stream_state before = Ok st →
  _agenerate json_loads acompletion_with_retry self messages stop rm kwargs
  = match json_loads text with
    | Some _ => Raise (ValueError text)
    | None => Raise (ValueError "JSONDecodeError")
    end.
Proof.
  intros Hstreaming Hkw Hs Hitems Hbefore. unfold _agenerate.
  rewrite Hkw, bind_Ok, Hs, bind_Ok, Hstreaming, Hitems, run_stream_app, Hbefore, bind_Ok.
  rewrite run_stream_cons. unfold item_step, item_choices, loads.
  by destruct (json_loads text).
Qed.

Lemma error_item_ends_the_stream_witness :
  _agenerate (decode error_table) (yielding items_with_error) a_client_streaming
    one_user_message None true ∅
  = Raise (ValueError "quota").
Proof.
  assert (∃ kw, agenerate_keywords a_client_streaming one_user_message None ∅ = Ok kw)
    as [kw Hkw] by (eexists; vm_compute; reflexivity).
  assert (∃ st, run_stream (item_step (decode error_table) true) initial_stream_state
                  [(false, "chunk-1")] = Ok st)
    as [st Hst] by (eexists; vm_compute; reflexivity).
  apply (error_item_ends_the_stream (decode error_table) (yielding items_with_error)
           a_client_streaming one_user_message None true ∅ kw items_with_error
           [(false, "chunk-1")] "quota" [(false, "chunk-3")] st);
    [ reflexivity | exact Hkw | reflexivity | reflexivity | exact Hst ].
Defined.

(** X15: a plain (not streaming) asynchronous call reads the first item of
    the stream only and never looks at its error mark: the call behaves as for
    the stream of that one text, unmarked, and an empty stream is an
    [IndexError].  So an error that the service reports as a JSON object
    without [output] surfaces as the [TypeError] of subscripting [None], not
    as the error reported. *)
Theorem plain_call_reads_the_first_item json_loads acompletion_with_retry self messages stop
    rm kwargs kw s :
  streaming self = false →
  agenerate_keywords self messages stop kwargs = Ok kw →
  acompletion_with_retry self kw = Ok s →
  failure s = None →
  match delivered s with
  | [] =>
      _agenerate json_loads acompletion_with_retry self messages stop rm kwargs
      = Raise IndexError
  | (is_error, text) :: _ =>
      _agenerate json_loads acompletion_with_retry self messages stop rm kwargs
      = _agenerate json_loads (yielding (only text)) self messages stop rm kwargs
      ∧ ∀ d, json_loads text = Some (JDict d) → d !! "output" = None →
             _agenerate json_loads acompletion_with_retry self messages stop rm kwargs
             = Raise TypeError
  end.
Proof.
  intros Hstreaming Hkw Hs Hfailure.
  assert (∀ source s',
            source self kw = Ok s' → failure s' = None →
            _agenerate json_loads source self messages stop rm kwargs
            = match delivered s' with
              | [] => Raise IndexError
              | (_, first) :: _ =>
                  response ← loads json_loads first;
                  output ← Py.get_method response "output" JNull;
                  usage ← Py.get_method response "usage" JNull;
                  res ← _create_chat_result self output usage;
                  Ok (res, [])
              end) as Hplain.
  { intros source s' Hs' Hfailure'. unfold _agenerate.
    rewrite Hkw, bind_Ok, Hs', bind_Ok, Hstreaming. unfold stream_end.
    by rewrite Hfailure'. }
  rewrite (Hplain _ s Hs Hfailure).
  destruct (delivered s) as [|[is_error text] rest]; [ done | ].
  split.
  - by rewrite (Hplain (yielding (only text)) (only text) eq_refl eq_refl).
  - intros d Hd Houtput. unfold loads. rewrite Hd, bind_Ok.
    cbn [Py.get_method]. rewrite !bind_Ok. unfold Py.get at 1. by rewrite Houtput.
Qed.

Lemma plain_call_reads_the_first_item_witness :
  _agenerate (decode error_table) (yielding error_items) (raw_self (Some 3))
    one_user_message None false ∅
  = Raise TypeError.
Proof.
  assert (∃ kw, agenerate_keywords (raw_self (Some 3)) one_user_message None ∅ = Ok kw)
    as [kw Hkw] by (eexists; vm_compute; reflexivity).
  pose proof (plain_call_reads_the_first_item (decode error_table) (yielding error_items)
                (raw_self (Some 3)) one_user_message None false ∅ kw error_items
                eq_refl Hkw eq_refl eq_refl) as Hfirst.
  cbn [delivered error_items] in Hfirst. destruct Hfirst as [_ Herror].
  apply (Herror {["message" := JStr "quota exceeded"]}); vm_compute; reflexivity.
Defined.

Section TokenCount.
Variable tiktoken_installed : bool.
Variable Encoding : Type.
Variable encoding_for_model : string -> option Encoding.
Variable get_encoding : string -> Encoding.
Variable encode : Encoding -> string -> result (list Z).
Variable version_minor : Z.
Variable super_count : list BaseMessage -> result Z.

Lemma count_items_shift encoding per_name kvs k :
  ∀ n r, count_items Encoding encode encoding per_name kvs n = Ok r →
         count_items Encoding encode encoding per_name kvs (n + k) = Ok (r + k).
Proof.
  induction kvs as [|[key value] kvs IH]; intros n r; cbn [count_items].
  - by intros [= <-].
  - destruct (encode_value Encoding encode encoding value) as [toks| |];
      [ | done | done ].
    rewrite !bind_Ok. intros Hrest. destruct (String.eqb key "name").
    + replace (n + k + Z.of_nat (length toks) + per_name)
        with (n + Z.of_nat (length toks) + per_name + k) by lia.
      by apply IH.
    + replace (n + k + Z.of_nat (length toks))
        with (n + Z.of_nat (length toks) + k) by lia.
      by apply IH.
Qed.

Lemma count_messages_shift encoding per_message per_name dicts k :
  ∀ n r, count_messages Encoding encode encoding per_message per_name dicts n = Ok r →
         count_messages Encoding encode encoding per_message per_name dicts (n + k)
         = Ok (r + k).
Proof.
  induction dicts as [|d dicts IH]; intros n r; cbn [count_messages].
  - by intros [= <-].
  - destruct (count_items Encoding encode encoding per_name (items d) (n + per_message))
      as [r1| |] eqn:Hitems; [ | done | done ].
    rewrite bind_Ok. intros Hrest.
    replace (n + k + per_message) with (n + per_message + k) by lia.
    rewrite (count_items_shift _ _ _ k _ _ Hitems), bind_Ok. by apply IH.
Qed.

Lemma count_messages_app encoding per_message per_name dicts1 dicts2 :
  ∀ n, count_messages Encoding encode encoding per_message per_name (dicts1 ++ dicts2) n
       = (r ← count_messages Encoding encode encoding per_message per_name dicts1 n;
          count_messages Encoding encode encoding per_message per_name dicts2 r).
Proof.
  induction dicts1 as [|d dicts1 IH]; intros n; [ done | ].
  cbn [app count_messages].
  destruct (count_items Encoding encode encoding per_name (items d) (n + per_message));
    [ | done | done ].
  rewrite !bind_Ok. apply IH.
Qed.

Lemma convert_messages_app messages1 messages2 :
  convert_messages (messages1 ++ messages2)
  = (dicts1 ← convert_messages messages1;
     dicts2 ← convert_messages messages2;
     Ok (dicts1 ++ dicts2)).
Proof.
  induction messages1 as [|m messages1 IH]; cbn [app convert_messages].
  - rewrite bind_Ok. by destruct (convert_messages messages2).
  - destruct (_convert_message_to_dict m); [ | done | done ]. rewrite !bind_Ok, IH.
    destruct (convert_messages messages1); [ | done | done ]. rewrite !bind_Ok.
    by destruct (convert_messages messages2).
Qed.

(** X16: on a Python later than 3.7 a count is returned only when tiktoken
    is installed and knows the model name asked for (the
    [tiktoken_model_name], or else the [model_name]) and this name starts
    with "chatglm".  For a name that tiktoken does not know, the encoding
    falls back to "cl100k_base" and so does the name that is tested: the
    call raises [NotImplementedError], also when the name of the model
    starts with "chatglm". *)
Theorem count_needs_a_known_chatglm_name self messages :
  7 < version_minor →
  (∀ n, get_num_tokens_from_messages tiktoken_installed Encoding encoding_for_model
          get_encoding encode version_minor super_count self messages = Ok n →
        tiktoken_installed = true
        ∧ is_Some (encoding_for_model (tiktoken_name self))
        ∧ Py.startswith (tiktoken_name self) "chatglm" = true)
  ∧ (tiktoken_installed = true →
     encoding_for_model (tiktoken_name self) = None →
     get_num_tokens_from_messages tiktoken_installed Encoding encoding_for_model
       get_encoding encode version_minor super_count self messages
     = Raise (NotImplementedError "cl100k_base")).
Proof.
  intros Hversion. unfold get_num_tokens_from_messages, _get_encoding_model, _import_tiktoken.
  rewrite (proj2 (Z.leb_gt version_minor 7) Hversion).
  assert (match tiktoken_model_name self with
          | Some name => name
          | None => model_name self
          end = tiktoken_name self) as ->
    by (unfold tiktoken_name; by destruct (tiktoken_model_name self)).
  split.
  - intros n. destruct tiktoken_installed; [ | done ]. rewrite bind_Ok.
    destruct (encoding_for_model (tiktoken_name self)) as [encoding|];
      cbv beta iota; rewrite bind_Ok.
    + destruct (Py.startswith (tiktoken_name self) "chatglm"); [ eauto | done ].
    + done.
  - intros -> ->. reflexivity.
Qed.

(** X17: the count of a concatenation is the sum of the counts of its parts
    less the 3 tokens that prime the reply, which are counted once: it is
    returned exactly when both parts can be counted. *)
Theorem count_of_concatenation self messages1 messages2 n :
  7 < version_minor →
  get_num_tokens_from_messages tiktoken_installed Encoding encoding_for_model
    get_encoding encode version_minor super_count self (messages1 ++ messages2) = Ok n
  ↔ ∃ n1 n2,
      get_num_tokens_from_messages tiktoken_installed Encoding encoding_for_model
        get_encoding encode version_minor super_count self messages1 = Ok n1
      ∧ get_num_tokens_from_messages tiktoken_installed Encoding encoding_for_model
          get_encoding encode version_minor super_count self messages2 = Ok n2
      ∧ n = n1 + n2 - 3.
Proof.
  intros Hversion. unfold get_num_tokens_from_messages.
  rewrite (proj2 (Z.leb_gt version_minor 7) Hversion).
  destruct (_get_encoding_model _ _ _ _ self) as [[model encoding]| |];
    [ | split; [ done | by intros (? & ? & ? & _) ]
      | split; [ done | by intros (? & ? & ? & _) ] ].
  rewrite !bind_Ok.
  destruct (Py.startswith model "chatglm");
    [ | split; [ done | by intros (? & ? & ? & _) ] ].
  rewrite convert_messages_app.
  destruct (convert_messages messages1) as [dicts1| |];
    [ | split; [ done | by intros (? & ? & ? & _) ]
      | split; [ done | by intros (? & ? & ? & _) ] ].
  rewrite !bind_Ok.
  destruct (convert_messages messages2) as [dicts2| |];
    [ | split; [ done | by intros (? & ? & ? & ? & _) ]
      | split; [ done | by intros (? & ? & ? & ? & _) ] ].
  rewrite !bind_Ok, count_messages_app.
  destruct (count_messages Encoding encode encoding 4 (-1) dicts1 0) as [r1| |];
    [ | split; [ done | by intros (? & ? & ? & _) ]
      | split; [ done | by intros (? & ? & ? & _) ] ].
  rewrite !bind_Ok. split.
  - destruct (count_messages Encoding encode encoding 4 (-1) dicts2 r1) as [r| |] eqn:Hr;
      [ | done | done ].
    rewrite bind_Ok. intros [= <-].
    pose proof (count_messages_shift encoding 4 (-1) dicts2 (- r1) _ _ Hr) as Hshift.
    replace (r1 + - r1) with 0 in Hshift by lia.
    exists (r1 + 3), (r + - r1 + 3). rewrite Hshift, bind_Ok.
    split; [ done | ]. split; [ done | lia ].
  - intros (n1 & n2 & [= <-] & Hn2 & ->).
    destruct (count_messages Encoding encode encoding 4 (-1) dicts2 0) as [r2| |] eqn:Hr2;
      [ | done | done ].
    rewrite bind_Ok in Hn2. injection Hn2 as <-.
    pose proof (count_messages_shift encoding 4 (-1) dicts2 r1 _ _ Hr2) as Hshift.
    replace (0 + r1) with r1 in Hshift by lia.
    rewrite Hshift, bind_Ok. f_equal. lia.
Qed.

End TokenCount.

Lemma count_needs_a_known_chatglm_name_witness :
  get_num_tokens_from_messages true unit toy_encoding_for_model (fun _ => ()) toy_encode
    11 no_super (raw_self (Some 3)) two_messages
  = Raise (NotImplementedError "cl100k_base").
Proof.
  apply (proj2 (count_needs_a_known_chatglm_name true unit toy_encoding_for_model
                  (fun _ => ()) toy_encode 11 no_super (raw_self (Some 3)) two_messages
                  ltac:(lia)));
    reflexivity.
Defined.

Lemma count_of_concatenation_witness :
  get_num_tokens_from_messages true unit toy_encoding_for_model (fun _ => ()) toy_encode
    11 no_super chatglm_self (two_messages ++ one_user_message) = Ok 49.
Proof.
  apply (proj2 (count_of_concatenation true unit toy_encoding_for_model (fun _ => ())
                  toy_encode 11 no_super chatglm_self two_messages one_user_message 49
                  ltac:(lia))).
  exists 36, 16. split; [ vm_compute; reflexivity | ].
  split; [ vm_compute; reflexivity | lia ].
Defined.

(* ===================================================================== *)
(** * The retried call in a namespace that binds the missing name *)
(* ===================================================================== *)

(** X18: once the namespace binds [retry_if_exception_type] (the module as
    it is written does not, and then makes no attempt), when the request can
    be built and the transport raises an [Exception] at every invocation,
    the retried call with [max_retries = k] posts exactly [max(1, k)]
    requests (exactly [k] for every [k >= 1], one for [k <= 0]) and the
    caller receives the exception of the last invocation itself. *)
Theorem retry_exhaustion transport self c kwargs k req (errors : nat -> exn) fuel :
  client self = Some c →
  max_retries self = Some k →
  request_of self (pop_accept c) kwargs = Ok req →
  (∀ i, transport i req = Raise (errors i)) →
  (∀ i, is_Exception (errors i) = true) →
  (Z.to_nat (Z.max 1 k) ≤ fuel)%nat →
  ∃ log,
    completion_with_retry patched transport self kwargs fuel
    = Some (Raise (errors (Z.to_nat (Z.max 1 k))),
            set_client (Some (pop_accept c)) self, log)
    ∧ attempts log = Z.to_nat (Z.max 1 k)
    ∧ posted log = replicate (Z.to_nat (Z.max 1 k)) req.
Proof.
  intros Hc Hk Hreq Hdown Hexc Hfuel.
  unfold completion_with_retry, _create_retry_decorator, retried_response, retry_call;
    cbn [patched retry_if_exception_type stop_after]. rewrite Hc, Hk.
  destruct (retrying_all_fail
              (_completion_with_retry transport self (pop_accept c) kwargs)
              errors (fun _ => [req])) with (k := k) (fuel := fuel) (a := 1%nat)
              (log0 := empty_log) as (log & Hrun & Hatt & Hposted).
  - intros i. unfold _completion_with_retry. by rewrite Hreq, Hdown.
  - exact Hexc.
  - lia.
  - replace (Z.to_nat (Z.max k (Z.of_nat 1))) with (Z.to_nat (Z.max 1 k)) in * by lia.
    exists log. rewrite Hrun. split; [ done | ]. simpl in Hatt, Hposted.
    split; [ lia | ].
    rewrite Hposted, concat_singletons, length_seq. simpl.
    destruct (Z.to_nat (Z.max 1 k)) as [|n] eqn:Hn; [ lia | ].
    simpl. by rewrite Nat.sub_0_r.
Qed.

Lemma retry_exhaustion_witness :
  ∃ log,
    completion_with_retry patched transport_down (raw_self (Some 3)) some_keywords 3
    = Some (Raise (RemoteError "connection refused"),
            set_client (Some (pop_accept {| headers := built_headers |})) (raw_self (Some 3)),
            log)
    ∧ attempts log = 3%nat
    ∧ length (posted log) = 3%nat.
Proof.
  destruct (retry_exhaustion transport_down (raw_self (Some 3))
              {| headers := built_headers |} some_keywords 3
              {| req_headers := delete "Accept" built_headers; req_url := url;
                 req_json :=
                   JDict (<["model" := JStr "qwen-turbo"]>
                            (<["parameters" := JDict ∅]>
                               {["input" := JDict some_keywords]})) |}
              (fun _ => RemoteError "connection refused") 3)
    as (log & Hrun & Hatt & Hposted).
  - reflexivity.
  - reflexivity.
  - vm_compute. reflexivity.
  - reflexivity.
  - reflexivity.
  - vm_compute. lia.
  - exists log. split; [ exact Hrun | ]. split; [ exact Hatt | ].
    rewrite Hposted. reflexivity.
Defined.

(** X19: once the namespace binds [retry_if_exception_type] (the module as
    it is written does not, and then never sleeps), the delay slept before
    attempt [i], for every [i >= 2] that a call reaches, is
    [min(max_seconds, min_seconds * 2^(i-2))]; there is one sleep before each
    attempt after the first; and a call that makes five attempts sleeps 1, 2,
    4 and 8 seconds before attempts 2, 3, 4 and 5. *)
Theorem backoff_schedule transport self kwargs fuel r self' log :
  completion_with_retry patched transport self kwargs fuel = Some (r, self', log) →
  (∀ i, (2 ≤ i ≤ attempts log)%nat →
     sleeps log !! (i - 2)%nat = Some (backoff_before min_seconds max_seconds 2 i))
  ∧ length (sleeps log) = (attempts log - 1)%nat
  ∧ (attempts log = 5%nat → sleeps log = [1; 2; 4; 8]).
Proof.
  unfold completion_with_retry, _create_retry_decorator, retried_response, retry_call;
    cbn [patched retry_if_exception_type stop_after].
  destruct (client self) as [c|].
  - destruct (retrying _ _ _ _ _) as [[r0 log0]|] eqn:Hrun; [ | done ].
    intros [= _ _ <-].
    apply retrying_log in Hrun as (j & Hatt & Hsl). simpl in Hatt, Hsl.
    rewrite Hatt, Hsl. repeat split.
    + intros i Hi. rewrite list_lookup_fmap, lookup_seq_lt by lia. simpl.
      rewrite wait_exponential_backoff by lia. do 2 f_equal. lia.
    + rewrite length_fmap, length_seq. lia.
    + intros [= ->]. vm_compute. reflexivity.
  - intros [= _ _ <-]. simpl. repeat split; [ lia | discriminate ].
Qed.

Lemma backoff_schedule_witness :
  ∃ log,
    completion_with_retry patched transport_down (raw_self (Some 5)) some_keywords 5
    = Some (Raise (RemoteError "connection refused"),
            set_client (Some (pop_accept {| headers := built_headers |})) (raw_self (Some 5)),
            log)
    ∧ attempts log = 5%nat
    ∧ sleeps log = [1; 2; 4; 8].
Proof.
  eexists. split; [ vm_compute; reflexivity | ]. split; [ reflexivity | ].
  eapply (backoff_schedule transport_down (raw_self (Some 5)) some_keywords 5).
  - vm_compute. reflexivity.
  - reflexivity.
Defined.

(** X20: in every namespace, a synchronous generation call leaves the
    client object as it was, except that in raw-HTTP mode the call may remove
    the [Accept] entry from the headers of the shared client: every other
    header, the credentials among them, and every other field are as before;
    the whole object is as before when the headers hold no [Accept] entry,
    which is the case for a client as the constructor builds it. *)
Theorem generation_only_pops_accept globals transport gc gs self messages stop
    run_manager kwargs fuel r eff :
  _generate globals transport gc gs self messages stop run_manager kwargs fuel
  = Some (r, eff) →
  set_client (client self) (self_after eff) = self
  ∧ (∀ c, client self = Some c →
       ∃ c', client (self_after eff) = Some c'
             ∧ ∀ name, name ≠ "Accept" → headers c' !! name = headers c !! name)
  ∧ ((∀ c, client self = Some c → headers c !! "Accept" = None) → self_after eff = self)
  ∧ (∀ fields key_kwarg key_env,
       init fields key_kwarg key_env = Ok self → use_dashscope_sdk fields = false →
       self_after eff = self).
Proof.
  intros Hrun.
  assert ((∀ c, client self = Some c → headers c !! "Accept" = None) → self_after eff = self)
    as Hsame.
  { intros Habsent.
    destruct (generate_self_after _ _ _ _ _ _ _ _ _ _ _ _ Hrun) as [->|(c & Hc & ->)]; [ done | ].
    rewrite pop_accept_absent by by apply Habsent. rewrite <- Hc. apply set_client_same. }
  repeat split.
  - destruct (generate_self_after _ _ _ _ _ _ _ _ _ _ _ _ Hrun) as [->|(c & Hc & ->)].
    + apply set_client_same.
    + by destruct self.
  - intros c Hc.
    destruct (generate_self_after _ _ _ _ _ _ _ _ _ _ _ _ Hrun) as [->|(c0 & Hc0 & ->)].
    + by exists c.
    + rewrite Hc in Hc0. injection Hc0 as <-. eexists. split; [ reflexivity | ].
      intros name Hname. simpl. by rewrite lookup_delete_ne.
  - exact Hsame.
  - intros fields kk ke Hinit Hsdk. apply Hsame. intros c Hc.
    destruct (init_raw_headers _ _ _ _ Hinit Hsdk) as [key Hbuilt].
    rewrite Hc in Hbuilt. injection Hbuilt as ->. simpl.
    rewrite lookup_insert_ne by done. by rewrite lookup_singleton_ne.
Qed.

Lemma generation_only_pops_accept_witness :
  ∃ r eff,
    _generate patched (transport_answering success_body) no_sdk_call no_sdk_stream
      (raw_self (Some 3)) one_user_message None false ∅ 1 = Some (r, eff)
    ∧ is_Ok r = true
    ∧ self_after eff = raw_self (Some 3).
Proof.
  pose proof (generation_only_pops_accept patched (transport_answering success_body)
                no_sdk_call no_sdk_stream (raw_self (Some 3)) one_user_message
                None false ∅ 1) as Hframe.
  destruct (_generate _ _ _ _ _ _ _ _ _ _) as [[r eff]|] eqn:Hrun.
  - exists r, eff. split; [ reflexivity | ]. split.
    + vm_compute in Hrun. by injection Hrun as <- _.
    + apply (Hframe r eff eq_refl). intros c [= <-]. vm_compute. reflexivity.
  - vm_compute in Hrun. discriminate.
Defined.

(** X21: what lines 238-248 make of the response that the retried call has
    returned.  The rejection code comes first: with it, the stand-in output
    and usage are returned even when the response has an [output].  Without
    it, a response without [output] raises [Exception] with the [message] of
    the response, or the [KeyError] of the lookup when there is none; and a
    response with [output] gives that output and its [usage], the empty text
    standing for a usage that is missing. *)
Theorem response_classification (d : gmap string json) :
  (d !! "code" = Some (JStr "DataInspectionFailed") →
   classify_response (JDict d)
   = match d !! "message" with
     | Some m => Ok (output_res m, usage_res)
     | None => Raise (KeyError "message")
     end)
  ∧ (d !! "code" ≠ Some (JStr "DataInspectionFailed") →
     classify_response (JDict d)
     = match d !! "output", d !! "message" with
       | Some output, _ => Ok (output, default (JStr "") (d !! "usage"))
       | None, Some m => Raise (Exception_ m)
       | None, None => Raise (KeyError "message")
       end).
Proof.
  split; intros Hcode; unfold classify_response.
  - rewrite (rejected_code _ Hcode), bind_Ok. cbn [Py.getitem]. unfold Py.item.
    by destruct (d !! "message").
  - rewrite (rejected_other _ Hcode), bind_Ok. cbn [Py.contains Py.getitem Py.get_method].
    rewrite bind_Ok. unfold Py.item. rewrite get_default.
    destruct (d !! "output") as [output|].
    + by rewrite bool_decide_eq_true_2 by eauto.
    + rewrite bool_decide_eq_false_2 by (intros [? ?]; discriminate).
      by destruct (d !! "message").
Qed.

Lemma response_classification_witness :
  classify_response failure_body = Raise (Exception_ (JStr "Invalid API-key provided."))
  ∧ classify_response success_body
    = Ok (JDict {["choices" :=
                   JList [JDict {["message" :=
                     JDict (role_content (JStr "assistant") (JStr "hi"))]}]]},
          JDict {["total_tokens" := JInt 7]}).
Proof.
  split.
  - etransitivity.
    + apply (proj2 (response_classification
                      (<["message" := JStr "Invalid API-key provided."]>
                         {["code" := JStr "InvalidApiKey"]}))).
      vm_compute. discriminate.
    + vm_compute. reflexivity.
  - etransitivity.
    + apply (proj2 (response_classification
                      (<["usage" := JDict {["total_tokens" := JInt 7]}]>
                         {["output" := JDict {["choices" :=
                             JList [JDict {["message" :=
                               JDict (role_content (JStr "assistant") (JStr "hi"))]}]]}]}))).
      vm_compute. discriminate.
    + vm_compute. reflexivity.
Defined.

(** X22: in the module as it is written, no synchronous generation returns
    a result.  Whatever the client, the messages and the keywords are, the
    call ends with an exception: in SDK mode at the latest with the
    [TypeError] of the keyword given twice, in raw-HTTP mode at the latest
    with the [NameError] of line 60; and it ends without a request posted and
    with the client object as it was. *)
Theorem synchronous_generation_never_returns transport gc gs self messages stop run_manager
    kwargs fuel :
  ∃ r,
    _generate as_written transport gc gs self messages stop run_manager kwargs fuel
    = Some (r, no_effects self)
    ∧ (∀ res, r ≠ Ok res)
    ∧ (∀ message_dicts params,
         _create_message_dicts self messages stop = Ok (message_dicts, params) →
         r = Raise TypeError
         ∨ r = Raise (NameError "retry_if_exception_type")).
Proof.
  unfold _generate.
  destruct (_create_message_dicts self messages stop) as [[mds params]|e|] eqn:Hdicts;
    [ | by eexists | by eexists ].
  destruct (use_dashscope_sdk self).
  - rewrite (sdk_call_keyword_clash _ _ _ _ _ _ _ _ _ Hdicts).
    eexists. split; [ reflexivity | ]. split; [ done | by left ].
  - unfold completion_keywords.
    destruct (bool_decide (is_Some (Py.merge params kwargs !! "self"))).
    { eexists. split; [ reflexivity | ]. split; [ done | by left ]. }
    unfold call_keywords. destruct (existsb _ _).
    { eexists. split; [ reflexivity | ]. split; [ done | by left ]. }
    rewrite completion_as_written.
    eexists. split; [ reflexivity | ]. split; [ done | by right ].
Qed.
